(** * nevergrad.functions.images.core: image recovery and adversarial objectives

    A shallow embedding of [nevergrad/functions/images/core.py].

    Conventions of the embedding.
    - A Python call either returns a value or raises: [result A].
    - numpy arrays and torch tensors are a shape (a list of dimensions) with
      the elements in row-major (C) order.  Views ([ravel], [reshape],
      [view]) share the element list.
    - Python floats and float tensors are exact rationals ([Qc]): the
      development is about the arithmetic the code writes down, not about
      rounding.  Integer arrays (uint8 pixels, long labels) hold [Z].
    - What the module gets from outside (the decoded PNG asset, random
      draws, pretrained weights, the data loader, the cross-entropy
      criterion) is gathered in a [World] record; nothing is assumed
      about it beyond what a theorem states. *)

From Stdlib Require Import ZArith NArith QArith Qcanon Qcabs List String Bool Lia.
From stdpp Require Import base option list numbers strings gmap.

Import ListNotations.
Local Open Scope string_scope.
Local Open Scope N_scope.

(** ** Exceptions and results *)

Inductive exn : Type :=
| AssertionError
| ValueError (msg : string)
| NameError (name : string)
| UnboundLocalError (name : string)
| IndexError
| RuntimeError
| StopIteration
| ConfigError
| LoadError
| ExternalError (msg : string).

Inductive result (A : Type) : Type :=
| Ok (a : A)
| Raise (e : exn).
Arguments Ok {A} a.
Arguments Raise {A} e.

#[global] Instance result_ret : MRet result := fun A a => Ok a.
#[global] Instance result_bind : MBind result := fun A B f m =>
  match m with
  | Ok a => f a
  | Raise e => Raise e
  end.

Definition is_ok {A} (r : result A) : bool :=
  match r with
  | Ok _ => true
  | Raise _ => false
  end.

Definition from_ok {A} (d : A) (r : result A) : A :=
  match r with
  | Ok a => a
  | Raise _ => d
  end.

(** The rational a computation ended on, for comparing outcomes. *)
Definition exact_value (r : result Qc) : result Q :=
  match r with
  | Ok q => Ok (this q)
  | Raise e => Raise e
  end.

(** [assert c] of Python. *)
Definition py_assert (c : bool) : result unit :=
  if c then Ok tt else Raise AssertionError.

(** ** Arrays: a shape and the elements in row-major order *)

Record ndarray (A : Type) : Type := mk_ndarray {
  shape : list N;
  elems : list A
}.
Arguments mk_ndarray {A} shape elems.
Arguments shape {A} n.
Arguments elems {A} n.

(** Number of elements a shape announces. *)
Definition numel (s : list N) : N := fold_right N.mul 1 s.

Definition size {A} (a : ndarray A) : N := numel (shape a).

(** An array holds exactly as many elements as its shape announces. *)
Definition wf {A} (a : ndarray A) : Prop :=
  N.of_nat (length (elems a)) = size a.

Definition shape_eqb (s t : list N) : bool := bool_decide (s = t).

(** [k] consecutive chunks of [n] elements. *)
Fixpoint chunks {A} (n k : nat) (l : list A) : list (list A) :=
  match k with
  | O => []
  | S k' => take n l :: chunks n k' (drop n l)
  end.

(** [np.ravel] / [np.reshape] / [Tensor.view]: same elements, new shape;
    the new shape must announce the same number of elements. *)
Definition ravel {A} (a : ndarray A) : ndarray A :=
  mk_ndarray [size a] (elems a).

Definition reshape {A} (err : exn) (a : ndarray A) (s : list N)
  : result (ndarray A) :=
  if numel s =? size a then Ok (mk_ndarray s (elems a)) else Raise err.

Definition np_reshape {A} (a : ndarray A) (s : list N) :=
  reshape (ValueError "cannot reshape array") a s.

Definition torch_view {A} (a : ndarray A) (s : list N) :=
  reshape RuntimeError a s.

(** ** Broadcasting of element-wise operations (numpy and torch agree) *)

(** Shapes are aligned on their last axis; the lists here are reversed. *)
Fixpoint broadcast_rev (s t : list N) : option (list N) :=
  match s, t with
  | [], _ => Some t
  | _, [] => Some s
  | a :: s', b :: t' =>
      match broadcast_rev s' t' with
      | Some r =>
          if a =? b then Some (a :: r)
          else if a =? 1 then Some (b :: r)
          else if b =? 1 then Some (a :: r)
          else None
      | None => None
      end
  end.

Definition broadcast_shapes (s t : list N) : option (list N) :=
  match broadcast_rev (rev s) (rev t) with
  | Some r => Some (rev r)
  | None => None
  end.

(** Elements of an array of shape [s] seen with shape [t], where [s] and
    [t] have the same rank and each axis of [s] is the axis of [t] or 1. *)
Fixpoint expand {A} (s t : list N) (l : list A) : list A :=
  match s, t with
  | a :: s', b :: t' =>
      if a =? b
      then concat (map (expand s' t')
                       (chunks (N.to_nat (numel s')) (N.to_nat a) l))
      else concat (replicate (N.to_nat b) (expand s' t' l))
  | _, _ => l
  end.

Definition pad_shape (rank : nat) (s : list N) : list N :=
  replicate (rank - length s)%nat 1 ++ s.

Definition broadcast_to {A} (t : list N) (a : ndarray A) : list A :=
  expand (pad_shape (length t) (shape a)) t (elems a).

Definition broadcast2 {A B C} (err : exn) (f : A -> B -> C)
    (a : ndarray A) (b : ndarray B) : result (ndarray C) :=
  match broadcast_shapes (shape a) (shape b) with
  | Some s => Ok (mk_ndarray s (zip_with f (broadcast_to s a) (broadcast_to s b)))
  | None => Raise err
  end.

Definition amap {A B} (f : A -> B) (a : ndarray A) : ndarray B :=
  mk_ndarray (shape a) (map f (elems a)).

Definition full {A} (s : list N) (v : A) : ndarray A :=
  mk_ndarray s (replicate (N.to_nat (numel s)) v).

(** ** Scalars *)

Definition Qc_of_Z (z : Z) : Qc := Q2Qc (inject_Z z).
Definition Qc_leb (x y : Qc) : bool := Qle_bool x y.
Definition Qc_ltb (x y : Qc) : bool := negb (Qle_bool y x).

(** A decimal literal of the source, as numerator and denominator. *)
Definition dec (n : Z) (d : positive) : Qc := Q2Qc (n # d).

(** ** numpy *)

(** [np.array(x, copy=False)] of an array is that array. *)
Definition np_array (x : ndarray Qc) : ndarray Qc := x.

Definition np_broadcast_error : exn :=
  ValueError "operands could not be broadcast together".

(** [np.subtract] of a float array and a uint8 array: the pixels are
    promoted to floats. *)
Definition np_subtract (x : ndarray Qc) (y : ndarray Z) : result (ndarray Qc) :=
  broadcast2 np_broadcast_error (fun u v => (u - Qc_of_Z v)%Qc) x y.

Definition np_fabs (x : ndarray Qc) : ndarray Qc := amap Qcabs x.

Definition np_sum (x : ndarray Qc) : Qc := fold_left Qcplus (elems x) 0%Qc.

Definition np_zeros (s : list N) : ndarray Qc := full s 0%Qc.
Definition np_ones (s : list N) : ndarray Qc := full s 1%Qc.

(** [a[:, :, :k]]: keeps the first [k] entries of the third axis. *)
Definition take_axis2 {A} (k : N) (a : ndarray A) : result (ndarray A) :=
  match shape a with
  | d0 :: d1 :: d2 :: rest =>
      let inner := numel rest in
      Ok (mk_ndarray (d0 :: d1 :: N.min d2 k :: rest)
            (concat (map (take (N.to_nat (N.min d2 k * inner)))
                         (chunks (N.to_nat (d2 * inner)) (N.to_nat (d0 * d1))
                                 (elems a)))))
  | _ => Raise IndexError
  end.

(** ** torch *)

(** [torch.Tensor(x)] of a float array: the same entries. *)
Definition torch_Tensor (x : ndarray Qc) : ndarray Qc := x.

Definition torch_add (x y : ndarray Qc) : result (ndarray Qc) :=
  broadcast2 RuntimeError Qcplus x y.
Definition torch_sub (x y : ndarray Qc) : result (ndarray Qc) :=
  broadcast2 RuntimeError Qcminus x y.
Definition torch_div (x y : ndarray Qc) : result (ndarray Qc) :=
  broadcast2 RuntimeError Qcdiv x y.

Definition clamp1 (lo hi v : Qc) : Qc :=
  if Qc_ltb v lo then lo else if Qc_ltb hi v then hi else v.

Definition torch_clamp (x : ndarray Qc) (lo hi : Qc) : ndarray Qc :=
  amap (clamp1 lo hi) x.

(** [t[None, :, None, None]] *)
Definition index_None_all_None_None {A} (t : ndarray A) : result (ndarray A) :=
  match shape t with
  | [] => Raise IndexError
  | d :: rest => Ok (mk_ndarray (1 :: d :: 1 :: 1 :: rest) (elems t))
  end.

(** [t[0]] *)
Definition index_0 {A} (t : ndarray A) : result (ndarray A) :=
  match shape t with
  | [] => Raise IndexError
  | d :: rest =>
      if d =? 0 then Raise IndexError
      else Ok (mk_ndarray rest (take (N.to_nat (numel rest)) (elems t)))
  end.

(** Position of the first largest entry of a non-empty list. *)
Fixpoint argmax_from (best : Qc) (besti i : N) (l : list Qc) : N :=
  match l with
  | [] => besti
  | v :: l' =>
      if Qc_ltb best v then argmax_from v i (i + 1) l'
      else argmax_from best besti (i + 1) l'
  end.

Definition argmax (l : list Qc) : Z :=
  match l with
  | [] => 0%Z
  | v :: l' => Z.of_N (argmax_from v 0 1 l')
  end.

(** Columns of a list of rows of [n] entries. *)
Definition transpose {A} (n : nat) (rows : list (list A)) : list (list A) :=
  fold_right (zip_with cons) (replicate n []) rows.

(** The indices returned by [torch.max(t, axis=1)]. *)
Definition torch_max_axis1 (t : ndarray Qc) : result (ndarray Z) :=
  match shape t with
  | d0 :: d1 :: rest =>
      if d1 =? 0 then Raise RuntimeError
      else
        let inner := N.to_nat (numel rest) in
        Ok (mk_ndarray (d0 :: rest)
              (concat (map (fun blk =>
                              map argmax
                                  (transpose inner (chunks inner (N.to_nat d1) blk)))
                           (chunks (N.to_nat d1 * inner) (N.to_nat d0) (elems t)))))
  | _ => Raise IndexError
  end.

(** [bool(a == b)] for tensors: one element exactly. *)
Definition tensor_eq_bool (a b : ndarray Z) : result bool :=
  match broadcast2 RuntimeError Z.eqb a b with
  | Ok r => match elems r with
            | [v] => Ok v
            | _ => Raise RuntimeError
            end
  | Raise e => Raise e
  end.

(** [int(t)] for a tensor: one element exactly. *)
Definition tensor_int (a : ndarray Z) : result Z :=
  match elems a with
  | [v] => Ok v
  | _ => Raise (ValueError "only one element tensors can be converted")
  end.

(** ** torch.nn modules of the file *)

(** [nn.Linear]: [y = x W^T + b] on the last axis. *)
Record Linear : Type := mk_Linear {
  in_features : N;
  out_features : N;
  weight : list (list Qc);
  bias : list Qc
}.

Definition dot (u v : list Qc) : Qc :=
  fold_left Qcplus (zip_with Qcmult u v) 0%Qc.

Definition Linear_forward (m : Linear) (x : ndarray Qc) : result (ndarray Qc) :=
  match rev (shape x) with
  | n :: front =>
      if n =? in_features m
      then Ok (mk_ndarray (rev front ++ [out_features m])
                 (concat (map (fun row => zip_with Qcplus (map (dot row) (weight m)) (bias m))
                              (chunks (N.to_nat n) (N.to_nat (numel front)) (elems x)))))
      else Raise RuntimeError
  | [] => Raise RuntimeError
  end.

Module Normalize.

Record t : Type := mk { mean : ndarray Qc; std : ndarray Qc }.

(** [torch.Tensor(mean)], [torch.Tensor(std)] of two sequences. *)
Definition __init__ (mean std : list Qc) : t :=
  mk (mk_ndarray [N.of_nat (length mean)] mean)
     (mk_ndarray [N.of_nat (length std)] std).

Definition forward (self : t) (x : ndarray Qc) : result (ndarray Qc) :=
  m ← index_None_all_None_None (mean self);
  s ← index_None_all_None_None (std self);
  d ← torch_sub x m;
  torch_div d s.

End Normalize.

Module Resnet50.

Record t : Type := mk {
  norm : Normalize.t;
  model : ndarray Qc -> result (ndarray Qc)
}.

(** [pretrained] is what [resnet50(pretrained=True)] gives: the network's
    forward pass, or the exception of a failed download. *)
Definition __init__ (pretrained : result (ndarray Qc -> result (ndarray Qc)))
  : result t :=
  let norm := Normalize.__init__ [dec 485 1000; dec 456 1000; dec 406 1000]
                                 [dec 229 1000; dec 224 1000; dec 225 1000] in
  model ← pretrained;
  Ok (mk norm model).

Definition forward (self : t) (x : ndarray Qc) : result (ndarray Qc) :=
  y ← Normalize.forward (norm self) x;
  model self y.

End Resnet50.

Module TestClassifier.

Record t : Type := mk { model : Linear }.

(** [linear] is the constructor [nn.Linear], which draws the weights. *)
Definition __init__ (linear : N -> N -> Linear) (image_size : N) : t :=
  mk (linear (image_size * image_size * 3) 10).

(** [x.view(x.shape[0], -1)] then the linear layer. *)
Definition forward (self : t) (x : ndarray Qc) : result (ndarray Qc) :=
  match shape x with
  | [] => Raise IndexError
  | b :: rest =>
      v ← (if b =? 0 then Raise RuntimeError
           else torch_view x [b; numel rest]);
      Linear_forward (model self) v
  end.

End TestClassifier.

(** A classifier is any [nn.Module]; calling it runs its [forward]. *)
Inductive nn_Module : Type :=
| OfTestClassifier (m : TestClassifier.t)
| OfResnet50 (m : Resnet50.t)
| OfCallable (forward : ndarray Qc -> result (ndarray Qc)).

Definition nn_call (m : nn_Module) (x : ndarray Qc) : result (ndarray Qc) :=
  match m with
  | OfTestClassifier c => TestClassifier.forward c x
  | OfResnet50 c => Resnet50.forward c x
  | OfCallable f => f x
  end.

(** ** Python values kept in descriptors, keyword arguments and globals *)

Inductive pyval : Type :=
| PyStr (s : string)
| PyInt (z : Z)
| PyFloat (q : Qc)
| PyBool (b : bool)
| PyTensor (t : ndarray Qc)
| PyModule (m : nn_Module)
| PyTags (d : gmap string string)
| PyObject (repr : string).

(** ** What the module gets from outside *)

Record World : Type := mk_World {
  (** [np.asarray(PIL.Image.open(path).resize(size, PIL.Image.ANTIALIAS))] *)
  pil_open_resize : string -> N * N -> result (ndarray Z);
  (** [torch.rand(shape)] *)
  torch_rand : list N -> ndarray Qc;
  (** [nn.Linear(in_features, out_features)] with its drawn weights *)
  nn_Linear : N -> N -> Linear;
  (** [nn.CrossEntropyLoss()(output, label).item()] *)
  cross_entropy : ndarray Qc -> ndarray Z -> result Qc;
  (** [resnet50(pretrained=True)] *)
  resnet50 : result (ndarray Qc -> result (ndarray Qc));
  (** the batches of [DataLoader(ImageFolder(data_folder, transform),
      batch_size=1, shuffle=True, ...)] *)
  data_loader : pyval -> result (list (ndarray Qc * ndarray Z));
  (** the descriptors [ExperimentFunction.__init__] starts from, by class *)
  base_descriptors : string -> gmap string pyval
}.

(** ** The parametrization [ng.p] *)

Module p.

(** Modelled from the spec: the classes [ng.p.Scalar],
    [ng.p.mutation.Crossover] and [ng.p.Array] of nevergrad's
    parametrization package, which is not among the source files.  The
    spec's DomainDescriptor declares a shape with its initial value, a
    mutation strength sigma, bounds with a bounding policy and a block
    recombination whose maximal block size is an integer in [1, 200]; its
    construction fails with ConfigError if lower > upper or sigma <= 0. *)
Record Scalar : Type := mk_Scalar {
  lower : Qc;
  upper : Qc;
  integer_casting : bool
}.

Record Crossover : Type := mk_Crossover {
  axis : list N;
  max_size : Scalar
}.

Record Bounds : Type := mk_Bounds {
  b_lower : Qc;
  b_upper : Qc;
  b_method : string;
  full_range_sampling : bool
}.

Record Array : Type := mk_Array {
  init : ndarray Qc;
  mutable_sigma : bool;
  sigma : option Qc;
  bounds : option Bounds;
  recombination : option Crossover;
  name : option string
}.

Definition Scalar_ (lower upper : Qc) : Scalar := mk_Scalar lower upper false.

Definition set_integer_casting (s : Scalar) : Scalar :=
  mk_Scalar (lower s) (upper s) true.

Definition Array_ (init : ndarray Qc) (mutable_sigma : bool) : Array :=
  mk_Array init mutable_sigma None None None None.

Definition set_name (n : string) (a : Array) : Array :=
  mk_Array (init a) (mutable_sigma a) (sigma a) (bounds a) (recombination a) (Some n).

Definition set_mutation (s : Qc) (a : Array) : result Array :=
  if Qc_leb s 0 then Raise ConfigError
  else Ok (mk_Array (init a) (mutable_sigma a) (Some s) (bounds a)
                    (recombination a) (name a)).

Definition set_bounds (lo hi : Qc) (method : string) (frs : bool) (a : Array)
  : result Array :=
  if Qc_ltb hi lo then Raise ConfigError
  else Ok (mk_Array (init a) (mutable_sigma a) (sigma a)
                    (Some (mk_Bounds lo hi method frs))
                    (recombination a) (name a)).

Definition set_recombination (c : Crossover) (a : Array) : Array :=
  mk_Array (init a) (mutable_sigma a) (sigma a) (bounds a) (Some c) (name a).

End p.

(** ** The base class of the objective functions *)

Module base.

(** Modelled from the spec: [base.ExperimentFunction], which is not among
    the source files.  An objective function carries its domain descriptor
    (the parametrization), the keyword arguments registered for its
    re-creation with the constructor to call on them, and the descriptors
    that describe the problem instance; adding descriptors updates that
    dictionary. *)
Record ExperimentFunction : Type := mk {
  parametrization : p.Array;
  _initialization_func : string;
  _initialization_kwargs : option (gmap string pyval);
  _descriptors : gmap string pyval
}.

Definition __init__ (w : World) (cls : string) (parametrization : p.Array)
  : ExperimentFunction :=
  mk parametrization cls None (base_descriptors w cls).

Definition register_initialization (kwargs : gmap string pyval)
    (self : ExperimentFunction) : ExperimentFunction :=
  mk (parametrization self) (_initialization_func self) (Some kwargs)
     (_descriptors self).

(** [dict.update]: the new entries win. *)
Definition update {V} (new old : gmap string V) : gmap string V := new ∪ old.

Definition add_descriptors (kwargs : gmap string pyval)
    (self : ExperimentFunction) : ExperimentFunction :=
  mk (parametrization self) (_initialization_func self)
     (_initialization_kwargs self) (update kwargs (_descriptors self)).

End base.

(** ** class Image: recovering a target image *)

Module Image.

Record t : Type := mk {
  domain_shape : list N;
  problem_name : string;
  index : Z;
  data : ndarray Z;
  super : base.ExperimentFunction
}.

(** The asset sits next to the module file. *)
Definition asset : string := "headrgb_olivier.png".

Definition __init__ (w : World) (problem_name : string) (index : Z) : result t :=
  let domain_shape := [256; 256; 3] in
  _ ← py_assert (String.eqb problem_name "recovering");
  _ ← py_assert (index =? 0)%Z;
  let path := asset in
  image ← pil_open_resize w path (nth 0 domain_shape 0, nth 1 domain_shape 0);
  data ← take_axis2 3 image;
  let array := p.Array_ (amap (Qcmult (dec 128 1)) (np_ones domain_shape)) true in
  array ← p.set_mutation (dec 35 1) array;
  array ← p.set_bounds 0%Qc (dec 25599 100) "clipping" true array;
  let max_size := p.set_integer_casting (p.Scalar_ 1%Qc (dec 200 1)) in
  let array := p.set_name EmptyString (p.set_recombination (p.mk_Crossover [0; 1] max_size) array) in
  let super := base.__init__ w "Image" array in
  let super := base.register_initialization
                 {[ "problem_name" := PyStr problem_name; "index" := PyInt index ]} super in
  let super := base.add_descriptors
                 {[ "problem_name" := PyStr problem_name; "index" := PyInt index ]} super in
  Ok (mk domain_shape problem_name index data super).

(** A method call takes the object and hands it back with the outcome. *)
Definition _loss (x : ndarray Qc) (self : t) : result Qc * t :=
  (_ ← py_assert (String.eqb (problem_name self) "recovering");
   let x := ravel (np_array x) in
   x ← np_reshape x (domain_shape self);
   _ ← py_assert (shape_eqb (shape x) (domain_shape self));
   _ ← py_assert (index self =? 0)%Z;
   d ← np_subtract x (data self);
   let value := np_sum (np_fabs d) in
   Ok value,
   self).

End Image.

(** ** class ImageAdversarial: searching a perturbation of a base image *)

Module ImageAdversarial.

Record t : Type := mk {
  targeted : bool;
  epsilon : Qc;
  image : ndarray Qc;
  label : ndarray Z;
  classifier : nn_Module;
  criterion : ndarray Qc -> ndarray Z -> result Qc;
  imsize : N;
  super : base.ExperimentFunction
}.

(** The keyword arguments of the constructor; [None] is an omitted
    argument, which takes its default. *)
Record kwargs : Type := mk_kwargs {
  kw_classifier : nn_Module;
  kw_image : ndarray Qc;
  kw_label : option Z;
  kw_targeted : option bool;
  kw_epsilon : option Qc
}.

Definition __init__ (w : World) (classifier : nn_Module) (image : ndarray Qc)
    (label : Z) (targeted : bool) (epsilon : Qc) : result t :=
  let label_t := mk_ndarray [1] [label] in
  let criterion := cross_entropy w in
  imsize ← match shape image with
           | _ :: d1 :: _ => Ok d1
           | _ => Raise IndexError
           end;
  let array := p.set_name EmptyString (p.Array_ (np_zeros (shape image)) true) in
  array ← p.set_mutation (epsilon / dec 10 1)%Qc array;
  array ← p.set_bounds (- epsilon)%Qc epsilon "clipping" true array;
  let max_size := p.set_integer_casting (p.Scalar_ 1%Qc (dec 200 1)) in
  let array := p.set_recombination (p.mk_Crossover [1; 2] max_size) array in
  let super := base.__init__ w "ImageAdversarial" array in
  let super := base.register_initialization
                 {[ "classifier" := PyModule classifier; "image" := PyTensor image;
                    "label" := PyInt label; "targeted" := PyBool targeted;
                    "epsilon" := PyFloat epsilon ]} super in
  let super := base.add_descriptors
                 {[ "label" := PyInt label; "targeted" := PyBool targeted;
                    "epsilon" := PyFloat epsilon ]} super in
  Ok (mk targeted epsilon image label_t classifier criterion imsize super).

(** The class called on the keyword arguments, with the defaults of the
    signature. *)
Definition construct (w : World) (k : kwargs) : result t :=
  __init__ w (kw_classifier k) (kw_image k)
           (default 0%Z (kw_label k))
           (default false (kw_targeted k))
           (default (dec 5 100) (kw_epsilon k)).

Definition _with_tag (w : World) (tags : gmap string string) (k : kwargs)
  : result t :=
  func ← construct w k;
  let super := base.add_descriptors (PyStr <$> tags) (super func) in
  let super := base.mk (base.parametrization super) "_with_tag"
                       (base._initialization_kwargs super)
                       (base._descriptors super) in
  match base._initialization_kwargs super with
  | None => Raise AssertionError
  | Some kw =>
      let super := base.mk (base.parametrization super)
                           (base._initialization_func super)
                           (Some (<["tags" := PyTags tags]> kw))
                           (base._descriptors super) in
      Ok (mk (targeted func) (epsilon func) (image func) (label func)
             (classifier func) (criterion func) (imsize func) super)
  end.

(** A method call takes the object and hands it back with the outcome. *)
Definition _loss (x : ndarray Qc) (self : t) : result Qc * t :=
  (let x := torch_Tensor x in
   s ← torch_add (image self) x;
   let image_adv := torch_clamp s 0%Qc 1%Qc in
   image_adv ← torch_view image_adv [1; 3; imsize self; imsize self];
   output_adv ← nn_call (classifier self) image_adv;
   value ← criterion self output_adv (label self);
   Ok (value * (if targeted self then 1 else - (1)))%Qc,
   self).

(** *** The generator [make_benchmark_functions] *)

(** The top-level names the module binds. *)
Definition core_globals : gmap string pyval :=
  list_to_map
    [ ("__name__", PyStr "nevergrad.functions.images.core");
      ("__file__", PyObject "the path of core.py");
      ("Path", PyObject "pathlib.Path"); ("np", PyObject "numpy");
      ("PIL", PyObject "PIL"); ("nn", PyObject "torch.nn");
      ("torch", PyObject "torch"); ("torchvision", PyObject "torchvision");
      ("resnet50", PyObject "torchvision.models.resnet50");
      ("tr", PyObject "torchvision.transforms"); ("ng", PyObject "nevergrad");
      ("tp", PyObject "nevergrad.common.typing");
      ("base", PyObject "nevergrad.functions.base");
      ("Image", PyObject "Image"); ("Normalize", PyObject "Normalize");
      ("Resnet50", PyObject "Resnet50");
      ("TestClassifier", PyObject "TestClassifier");
      ("ImageAdversarial", PyObject "ImageAdversarial") ].

(** Reading a name that is not a local looks it up in the module's
    globals (and then in the builtins, which have no [data_folder]). *)
Definition lookup_global (globals : gmap string pyval) (name : string)
  : result pyval :=
  match globals !! name with
  | Some v => Ok v
  | None => Raise (NameError name)
  end.

(** The [for] loop of the imagenet branch; [func] is the local variable
    it assigns, unbound before the first assignment. *)
Fixpoint imagenet_loop (w : World) (tags : gmap string string)
    (classifier : nn_Module) (batches : list (ndarray Qc * ndarray Z))
    (func : option t) : result (option t) :=
  match batches with
  | [] => Ok func
  | (data, target) :: rest =>
      out ← nn_call classifier data;
      pred ← torch_max_axis1 out;
      hit ← tensor_eq_bool pred target;
      func ← (if hit : bool
              then image ← index_0 data;
                   label ← tensor_int target;
                   f ← _with_tag w tags
                         (mk_kwargs classifier image (Some label) (Some false)
                                    (Some (dec 5 100)));
                   Ok (Some f)
              else Ok func);
      imagenet_loop w tags classifier rest func
  end.

Inductive yield_point : Type := YieldTest | YieldImagenet.

Definition quote : string := String (Ascii.ascii_of_nat 34) EmptyString.

(** The body, from its start to its first [yield] or exception. *)
Definition body (globals : gmap string pyval) (w : World) (name : string)
  : result (t * yield_point) :=
  let tags : gmap string string := {[ "benchmark" := name ]} in
  if String.eqb name "test" then
    let imsize := 224 in
    let classifier := OfTestClassifier (TestClassifier.__init__ (nn_Linear w) imsize) in
    let image := torch_rand w [3; imsize; imsize] in
    func ← _with_tag w tags (mk_kwargs classifier image (Some 0%Z) (Some false) None);
    Ok (func, YieldTest)
  else if String.eqb name "imagenet" then
    classifier ← Resnet50.__init__ (resnet50 w);
    let classifier := OfResnet50 classifier in
    data_folder ← lookup_global globals "data_folder";
    batches ← data_loader w data_folder;
    func ← imagenet_loop w tags classifier batches None;
    match func with
    | Some f => Ok (f, YieldImagenet)
    | None => Raise (UnboundLocalError "func")
    end
  else Raise (ValueError ("Unknown benchmark case " ++ quote ++ name ++ quote)).

(** A generator object: not started, suspended at a [yield], or done. *)
Inductive generator : Type :=
| Created (name : string)
| Suspended (at_yield : yield_point)
| Finished.

(** Calling a generator function runs none of its body. *)
Definition make_benchmark_functions (name : string) : result generator :=
  Ok (Created name).

(** A [StopIteration] that escapes the body of a generator is turned into
    a [RuntimeError] (PEP 479). *)
Definition escaping (e : exn) : exn :=
  match e with
  | StopIteration => RuntimeError
  | _ => e
  end.

(** [next(g)]: after either [yield] the body falls off its end. *)
Definition next (globals : gmap string pyval) (w : World) (g : generator)
  : result t * generator :=
  match g with
  | Created name =>
      match body globals w name with
      | Ok (func, pt) => (Ok func, Suspended pt)
      | Raise e => (Raise (escaping e), Finished)
      end
  | Suspended _ => (Raise StopIteration, Finished)
  | Finished => (Raise StopIteration, Finished)
  end.

(** Iterating a generator to its end: the instances it yields, and the
    exception that ended it if it was not exhaustion. *)
Fixpoint iterate (fuel : nat) (globals : gmap string pyval) (w : World)
    (g : generator) : option (list t * option exn) :=
  match fuel with
  | O => None
  | S fuel' =>
      match next globals w g with
      | (Ok func, g') =>
          match iterate fuel' globals w g' with
          | Some (l, e) => Some (func :: l, e)
          | None => None
          end
      | (Raise StopIteration, _) => Some ([], None)
      | (Raise e, _) => Some ([], Some e)
      end
  end.

End ImageAdversarial.


(** ** The contracts of the spec, in its own words *)

Module Spec.

(** The spec's name for numpy's refusal to reshape. *)
Definition ShapeError : exn := ValueError "cannot reshape array".

(** [f 0 + ... + f (n-1)] *)
Definition sum_below (n : N) (f : N -> Qc) : Qc :=
  N.peano_rect (fun _ => Qc) 0%Qc (fun i acc => (acc + f i)%Qc) n.

(** Entry [i, j, k] of an array seen with shape (256, 256, 3). *)
Definition entry {A} (d : A) (a : ndarray A) (i j k : N) : A :=
  nth (N.to_nat ((i * 256 + j) * 3 + k)) (elems a) d.

(** RecoveryObjective.evaluate: reshapes the point to (256,256,3), fails
    with ShapeError if the reshape is impossible, and returns the sum over
    all elements of |point - target|. *)
Definition recovery_evaluate (target : ndarray Z) (point : ndarray Qc) : result Qc :=
  if size point =? 256 * 256 * 3
  then Ok (sum_below 256 (fun i =>
           sum_below 256 (fun j =>
           sum_below 3 (fun k =>
             Qcabs (entry 0%Qc point i j k - Qc_of_Z (entry 0%Z target i j k))))))
  else Raise ShapeError.

(** AdversarialObjective.evaluate: perturbed = clamp(baseImage + point, 0, 1),
    the classifier's logits on that single image, the cross-entropy loss
    against the label, returned as it is if targeted and negated if not. *)
Definition adversarial_evaluate (self : ImageAdversarial.t) (point : ndarray Qc)
  : result Qc :=
  let baseImage := ImageAdversarial.image self in
  let perturbed :=
    zip_with (fun b d => clamp1 0%Qc 1%Qc (b + d)%Qc) (elems baseImage) (elems point) in
  logits ← nn_call (ImageAdversarial.classifier self)
                   (mk_ndarray (1 :: shape baseImage) perturbed);
  loss ← ImageAdversarial.criterion self logits (ImageAdversarial.label self);
  Ok (if ImageAdversarial.targeted self then loss else (- loss)%Qc).

End Spec.

(** The PNG asset decodes to a 256 x 256 image with at least the three
    colour channels (it is an RGBA file). *)
Definition colour_asset (w : World) : Prop :=
  forall img,
    pil_open_resize w Image.asset (256, 256) = Ok img ->
    wf img /\ exists c, 3 <= c /\ shape img = [256; 256; c].

(** What the constructor of [Image] establishes. *)
Record Image_inv (self : Image.t) : Prop := {
  inv_domain_shape : Image.domain_shape self = [256; 256; 3];
  inv_problem_name : Image.problem_name self = "recovering";
  inv_index : Image.index self = 0%Z;
  inv_data_shape : shape (Image.data self) = [256; 256; 3];
  inv_data_wf : wf (Image.data self)
}.

(** ** A sample world, to run the definitions on *)

Module Sample.

(** A stand-in for the cross-entropy: how far the logit of the label is
    below the largest logit. *)
Definition margin (out : ndarray Qc) (label : ndarray Z) : result Qc :=
  match elems label with
  | [l] =>
      match elems out !! Z.to_nat l with
      | Some v =>
          Ok (fold_left (fun m u => if Qc_ltb m u then u else m) (elems out) v - v)%Qc
      | None => Raise IndexError
      end
  | _ => Raise RuntimeError
  end.

(** A grey RGBA asset, constant draws, a classifier that cannot be
    downloaded and an empty data folder. *)
Definition world : World := mk_World
  (fun _ '(wd, ht) => Ok (full [ht; wd; 4] 7%Z))
  (fun s => full s (dec 1 2))
  (fun i o => mk_Linear i o
                (replicate (N.to_nat o) (replicate (N.to_nat i) 0%Qc))
                (replicate (N.to_nat o) 0%Qc))
  margin
  (Raise (ExternalError "no network"))
  (fun _ => Ok [])
  (fun cls => {[ "function_class" := PyStr cls ]}).

Definition image : Image.t :=
  from_ok (Image.mk [] EmptyString 0 (mk_ndarray [] [])
             (base.__init__ world "Image" (p.Array_ (mk_ndarray [] []) true)))
          (Image.__init__ world "recovering" 0).

(** A candidate image, grey 8 everywhere, handed over flat. *)
Definition point : ndarray Qc := full [196608] (dec 8 1).

(** A 2 x 2 base image, a 2 x 3 one, and a classifier that hands the
    flattened batch back as logits. *)
Definition square_image : ndarray Qc :=
  mk_ndarray [3; 2; 2]
    [dec 1 2; dec 1 4; 0%Qc; 1%Qc; dec 3 4; dec 1 2; dec 1 8; dec 7 8;
     dec 1 2; dec 99 100; dec 1 100; dec 1 2].

Definition wide_image : ndarray Qc := full [3; 2; 3] (dec 1 2).

Definition classifier : nn_Module :=
  OfCallable (fun x => torch_view x [1; size x]).

Definition no_adversarial : ImageAdversarial.t :=
  ImageAdversarial.mk false 0%Qc (mk_ndarray [] []) (mk_ndarray [] []) classifier
    (cross_entropy world) 0
    (base.__init__ world "ImageAdversarial" (p.Array_ (mk_ndarray [] []) true)).

Definition adversarial (img : ndarray Qc) (targeted : bool) : ImageAdversarial.t :=
  from_ok no_adversarial
    (ImageAdversarial.__init__ world classifier img 5 targeted (dec 5 100)).

(** A perturbation of the square image that leaves [0, 1] at two places. *)
Definition perturbation : ndarray Qc :=
  mk_ndarray [3; 2; 2]
    [dec 1 20; dec (-1) 20; dec (-1) 20; dec 1 20; 0%Qc; 0%Qc; dec 1 50; 0%Qc;
     dec (-1) 25; dec 1 20; dec (-1) 20; 0%Qc].

(** A world for the imagenet branch: the network answers with the first
    two entries of its input as logits, and the data folder holds two
    images, of class 0 and of class 1, both classified correctly. *)
Definition imagenet_world : World := mk_World
  (pil_open_resize world) (torch_rand world) (nn_Linear world) (cross_entropy world)
  (Ok (fun x => Ok (mk_ndarray [1; 2] (take 2 (elems x)))))
  (fun _ =>
     Ok [ (mk_ndarray [1; 3; 2; 2] (dec 9 10 :: replicate 11 (dec 1 10)),
           mk_ndarray [1] [0%Z]);
          (mk_ndarray [1; 3; 2; 2] (dec 1 10 :: dec 9 10 :: replicate 10 (dec 1 10)),
           mk_ndarray [1] [1%Z]) ])
  (base_descriptors world).

(** The module's namespace once somebody has bound [data_folder] in it. *)
Definition patched_globals : gmap string pyval :=
  <["data_folder" := PyStr "/data/imagenet"]> ImageAdversarial.core_globals.

(** The labels of the instances an iteration has yielded. *)
Definition labels (r : option (list ImageAdversarial.t * option exn))
  : option (list (list Z) * option exn) :=
  match r with
  | Some (l, e) => Some (map (fun f => elems (ImageAdversarial.label f)) l, e)
  | None => None
  end.

End Sample.

(** ** The test of the imagenet loop *)


(** ** Further samples, to run the definitions on *)

Module Probe.

(** The sample world with another outcome of decoding the asset. *)
Definition asset_world (asset : result (ndarray Z)) : World := mk_World
  (fun _ _ => asset)
  (torch_rand Sample.world) (nn_Linear Sample.world) (cross_entropy Sample.world)
  (resnet50 Sample.world) (data_loader Sample.world) (base_descriptors Sample.world).

(** An RGBA asset whose pixels differ from place to place. *)
Fixpoint ramp (n : nat) (i : Z) : list Z :=
  match n with
  | O => []
  | S n' => (i mod 251)%Z :: ramp n' (i + 1)%Z
  end.

Definition gradient : ndarray Z :=
  mk_ndarray [256; 256; 4] (ramp (N.to_nat (256 * 256 * 4)) 0).

Definition gradient_world : World := asset_world (Ok gradient).

Definition gradient_image : Image.t :=
  from_ok Sample.image (Image.__init__ gradient_world "recovering" 0).

(** The target of an [Image], as a candidate point. *)
Definition target_point (self : Image.t) : ndarray Qc :=
  amap Qc_of_Z (Image.data self).

(** The value a call returned, 0 if it raised. *)
Definition returned (r : result Qc) : Qc := from_ok 0%Qc r.

(** The statistics [Resnet50] normalises with. *)
Definition imagenet_mean : list Qc := [dec 485 1000; dec 456 1000; dec 406 1000].
Definition imagenet_std : list Qc := [dec 229 1000; dec 224 1000; dec 225 1000].

(** A batch of two 3-channel images of 1 x 2 pixels, and one with four
    channels. *)
Definition batch : ndarray Qc :=
  mk_ndarray [2; 3; 1; 2]
    [dec 1 10; dec 2 10; dec 3 10; dec 4 10; dec 5 10; dec 6 10;
     dec 7 10; dec 8 10; dec 9 10; 1%Qc; 0%Qc; dec 1 2].

Definition rgba_batch : ndarray Qc := full [2; 4; 1; 2] (dec 1 2).

(** A linear layer with four inputs and two logits, and a batch of two
    2 x 2 items for it. *)
Definition linear : Linear :=
  mk_Linear 4 2
    [[1%Qc; 0%Qc; 0%Qc; 0%Qc]; [0%Qc; 1%Qc; 0%Qc; dec (-1) 1]]
    [dec 1 2; 0%Qc].

Definition items : ndarray Qc :=
  mk_ndarray [2; 2; 2]
    [dec 1 10; dec 2 10; dec 3 10; dec 4 10; dec 5 10; dec 6 10; dec 7 10; dec 8 10].

(** The forward pass of the sample classifier, and one that refuses every
    input with an entry outside [0, 1]. *)
Definition flatten (t : ndarray Qc) : result (ndarray Qc) := torch_view t [1; size t].

Definition unit_entries (t : ndarray Qc) : bool :=
  forallb (fun v => Qc_leb 0 v && Qc_leb v 1) (elems t).

Definition picky (t : ndarray Qc) : result (ndarray Qc) :=
  if unit_entries t then flatten t else Raise (ValueError "not an image").

Definition adversarial_with (cls : nn_Module) (targeted : bool) : ImageAdversarial.t :=
  from_ok Sample.no_adversarial
    (ImageAdversarial.__init__ Sample.world cls Sample.square_image 5 targeted (dec 5 100)).

(** The imagenet sample: its network, its two items and the instance
    built from the second. *)
Definition net : Resnet50.t :=
  from_ok (Resnet50.mk (Normalize.__init__ [] []) (fun x => Ok x))
          (Resnet50.__init__ (resnet50 Sample.imagenet_world)).

Definition items_of_folder : list (ndarray Qc * ndarray Z) :=
  from_ok [] (data_loader Sample.imagenet_world (PyStr "/data/imagenet")).

Definition imagenet_tags : gmap string string := {[ "benchmark" := "imagenet" ]}.

Definition after_first_item : option ImageAdversarial.t :=
  from_ok None
    (ImageAdversarial.imagenet_loop Sample.imagenet_world imagenet_tags
       (OfResnet50 net) (take 1 items_of_folder) None).

Definition second_image : ndarray Qc :=
  mk_ndarray [3; 2; 2] (dec 1 10 :: dec 9 10 :: replicate 10 (dec 1 10)).

Definition second_instance : ImageAdversarial.t :=
  from_ok Sample.no_adversarial
    (ImageAdversarial._with_tag Sample.imagenet_world imagenet_tags
       (ImageAdversarial.mk_kwargs (OfResnet50 net) second_image
          (Some 1%Z) (Some false) (Some (dec 5 100)))).


(** The instance the "test" benchmark yields in the sample world. *)
Definition test_instance : ImageAdversarial.t :=
  from_ok Sample.no_adversarial
    (fst (ImageAdversarial.next ImageAdversarial.core_globals Sample.world
            (ImageAdversarial.Created "test"))).

End Probe.

(** * Properties *)

(** ** Running the definitions *)

Example broadcast_column_row :
  broadcast2 RuntimeError Z.add (mk_ndarray [2; 1] [1; 2]%Z)
                                (mk_ndarray [3] [10; 20; 30]%Z)
  = Ok (mk_ndarray [2; 3] [11; 21; 31; 12; 22; 32]%Z).
Proof. reflexivity. Qed.

Example broadcast_mismatch :
  broadcast2 RuntimeError Z.add (mk_ndarray [2; 3] [1; 2; 3; 4; 5; 6]%Z)
                                (mk_ndarray [2] [10; 20]%Z)
  = Raise RuntimeError.
Proof. reflexivity. Qed.

Example drop_alpha :
  take_axis2 3 (mk_ndarray [1; 2; 4] [1; 2; 3; 255; 4; 5; 6; 255]%Z)
  = Ok (mk_ndarray [1; 2; 3] [1; 2; 3; 4; 5; 6]%Z).
Proof. reflexivity. Qed.

Example grey_image_loss :
  exact_value (fst (Image._loss Sample.point Sample.image)) = Ok (196608 # 1)%Q.
Proof. vm_compute. reflexivity. Qed.

Example short_point_refused :
  fst (Image._loss (full [196607] (dec 8 1)) Sample.image)
  = Raise (ValueError "cannot reshape array").
Proof. vm_compute. reflexivity. Qed.

Example untargeted_loss :
  exact_value (fst (ImageAdversarial._loss Sample.perturbation
                      (Sample.adversarial Sample.square_image false)))
  = Ok (-1 # 2)%Q.
Proof. vm_compute. reflexivity. Qed.

Example targeted_loss :
  exact_value (fst (ImageAdversarial._loss Sample.perturbation
                      (Sample.adversarial Sample.square_image true)))
  = Ok (1 # 2)%Q.
Proof. vm_compute. reflexivity. Qed.

Example normalize_first_channel :
  match Normalize.forward
          (Normalize.__init__ [dec 485 1000; dec 456 1000; dec 406 1000]
                              [dec 229 1000; dec 224 1000; dec 225 1000])
          (full [1; 3; 1; 1] (dec 9 10)) with
  | Ok y => Ok (shape y, map this (elems y))
  | Raise e => Raise e
  end
  = Ok ([1; 3; 1; 1], [415 # 229; 111 # 56; 494 # 225]%Q).
Proof. vm_compute. reflexivity. Qed.

Example argmax_first_largest :
  argmax [dec 1 2; dec 3 4; dec 3 4; dec 1 4] = 1%Z.
Proof. vm_compute. reflexivity. Qed.

(** ** Lists cut into chunks *)

Section Chunks.
Context {A : Type}.
Implicit Types (l : list A) (n k : nat).

Lemma chunks_concat n k l :
  length l = (k * n)%nat -> concat (chunks n k l) = l.
Proof.
  revert l; induction k as [|k IH]; intros l Hl; cbn [chunks concat].
  - destruct l; [reflexivity | discriminate].
  - rewrite IH, take_drop; [reflexivity|].
    rewrite length_drop, Hl. cbn [Nat.mul]. lia.
Qed.

Lemma chunks_Forall_length n k l :
  length l = (k * n)%nat -> Forall (fun c => length c = n) (chunks n k l).
Proof.
  revert l; induction k as [|k IH]; intros l Hl; cbn [chunks]; constructor.
  - rewrite length_take, Hl. cbn [Nat.mul]. lia.
  - apply IH. rewrite length_drop, Hl. cbn [Nat.mul]. lia.
Qed.

Lemma chunks_length n k l : length (chunks n k l) = k.
Proof. revert l; induction k as [|k IH]; intros l; cbn [chunks length]; congruence. Qed.

End Chunks.

(** ** Shapes *)

Lemma numel_cons a s : numel (a :: s) = a * numel s.
Proof. reflexivity. Qed.

Lemma wf_length {A} (a : ndarray A) :
  wf a -> length (elems a) = N.to_nat (numel (shape a)).
Proof. unfold wf, size. intros H. rewrite <- H. symmetry. apply Nat2N.id. Qed.

Lemma broadcast_rev_same s : broadcast_rev s s = Some s.
Proof.
  induction s as [|a s IH]; [reflexivity|].
  cbn [broadcast_rev]. rewrite IH, N.eqb_refl. reflexivity.
Qed.

Lemma broadcast_shapes_same s : broadcast_shapes s s = Some s.
Proof. unfold broadcast_shapes. rewrite broadcast_rev_same, rev_involutive. reflexivity. Qed.

Lemma pad_shape_same s : pad_shape (length s) s = s.
Proof. unfold pad_shape. rewrite Nat.sub_diag. reflexivity. Qed.

Lemma expand_same {A} s (l : list A) :
  length l = N.to_nat (numel s) -> expand s s l = l.
Proof.
  revert l; induction s as [|a s IH]; intros l Hl; [reflexivity|].
  cbn [expand]. rewrite N.eqb_refl.
  rewrite numel_cons, N2Nat.inj_mul in Hl.
  rewrite <- (chunks_concat _ _ _ Hl) at 2. f_equal.
  rewrite <- (map_id (chunks _ _ l)) at 2.
  apply map_ext_Forall.
  eapply Forall_impl; [apply (chunks_Forall_length _ _ _ Hl)|].
  intros c Hc. apply IH. exact Hc.
Qed.

Lemma broadcast_to_same {A} (a : ndarray A) :
  wf a -> broadcast_to (shape a) a = elems a.
Proof.
  intros Hwf. unfold broadcast_to. rewrite pad_shape_same.
  apply expand_same, wf_length, Hwf.
Qed.

(** On operands of one shape an element-wise operation pairs the elements
    in order. *)
Lemma broadcast2_same {A B C} err (f : A -> B -> C) (a : ndarray A) (b : ndarray B) :
  wf a -> wf b -> shape a = shape b ->
  broadcast2 err f a b = Ok (mk_ndarray (shape a) (zip_with f (elems a) (elems b))).
Proof.
  intros Ha Hb Hs. unfold broadcast2. rewrite <- Hs, broadcast_shapes_same.
  rewrite (broadcast_to_same a Ha). rewrite Hs at 2.
  rewrite (broadcast_to_same b Hb). reflexivity.
Qed.

Lemma concat_take_chunks_length {A} m n k (l : list A) :
  (m <= n)%nat -> length l = (k * n)%nat ->
  length (concat (map (take m) (chunks n k l))) = (k * m)%nat.
Proof.
  intros Hm. revert l; induction k as [|k IH]; intros l Hl; [reflexivity|].
  cbn [chunks map concat]. rewrite length_app, IH.
  - rewrite length_take, length_take, Hl. cbn [Nat.mul]. lia.
  - rewrite length_drop, Hl. cbn [Nat.mul]. lia.
Qed.

(** ** Results *)

Lemma from_ok_eq {A} (d : A) (r : result A) :
  is_ok r = true -> r = Ok (from_ok d r).
Proof. destruct r; [reflexivity | discriminate]. Qed.

Lemma bind_Ok {A B} (f : A -> result B) (a : A) : mbind f (Ok a) = f a.
Proof. reflexivity. Qed.

Lemma bind_Raise {A B} (f : A -> result B) e : mbind f (Raise e) = Raise e.
Proof. reflexivity. Qed.

Lemma bind_inv_Ok {A B} (f : A -> result B) (m : result A) (b : B) :
  mbind f m = Ok b -> exists a, m = Ok a /\ f a = Ok b.
Proof. destruct m as [a|e]; [eauto | discriminate]. Qed.

Lemma py_assert_inv c u : py_assert c = Ok u -> c = true.
Proof. destruct c; [reflexivity | discriminate]. Qed.

(** Splits a hypothesis [x ← m; k = Ok b] into its steps. *)
Ltac bind_inv H :=
  let a := fresh "a" in
  let Ha := fresh "H" a in
  apply bind_inv_Ok in H; destruct H as (a & Ha & H).

(** ** The stored target *)

Lemma take_axis2_colour (img : ndarray Z) ht wd c :
  wf img -> shape img = [ht; wd; c] -> 3 <= c ->
  exists a, take_axis2 3 img = Ok a /\ shape a = [ht; wd; 3] /\ wf a.
Proof.
  intros Hwf Hs Hc. unfold take_axis2. rewrite Hs.
  eexists; split; [reflexivity|]. split.
  - cbn [shape]. rewrite N.min_r by exact Hc. reflexivity.
  - unfold wf, size. cbn [shape elems].
    pose proof (wf_length _ Hwf) as Hl. rewrite Hs in Hl.
    rewrite N.min_r by exact Hc.
    rewrite (concat_take_chunks_length (N.to_nat (3 * numel []))
               (N.to_nat (c * numel [])) (N.to_nat (ht * wd))).
    + rewrite <- N2Nat.inj_mul, N2Nat.id. cbn [numel fold_right]. lia.
    + cbn [numel fold_right]. lia.
    + rewrite Hl. rewrite <- N2Nat.inj_mul. f_equal. cbn [numel fold_right]. lia.
Qed.

Lemma Image_init_inv w pn idx self :
  colour_asset w -> Image.__init__ w pn idx = Ok self -> Image_inv self.
Proof.
  intros Hw H. unfold Image.__init__ in H. cbv zeta in H.
  bind_inv H. apply py_assert_inv, String.eqb_eq in Ha.
  bind_inv H. apply py_assert_inv, Z.eqb_eq in Ha0.
  bind_inv H. bind_inv H. bind_inv H. bind_inv H.
  injection H as <-.
  change (nth 0 [256; 256; 3] 0, nth 1 [256; 256; 3] 0) with (256, 256) in Ha1.
  apply Hw in Ha1 as (Hwf & c & Hc & Hs).
  destruct (take_axis2_colour _ _ _ _ Hwf Hs Hc) as (d & Hd & Hds & Hdw).
  rewrite Hd in Ha2. injection Ha2 as <-.
  split; cbn; auto.
Qed.

(** ** Sums *)

Lemma sum_below_0 f : Spec.sum_below 0 f = 0%Qc.
Proof. reflexivity. Qed.

Lemma sum_below_succ n f :
  Spec.sum_below (N.succ n) f = (Spec.sum_below n f + f n)%Qc.
Proof. unfold Spec.sum_below. rewrite N.peano_rect_succ. reflexivity. Qed.

Lemma sum_below_ext n f g :
  (forall i, i < n -> f i = g i) -> Spec.sum_below n f = Spec.sum_below n g.
Proof.
  induction n as [|n IH] using N.peano_ind; intros H; [reflexivity|].
  rewrite !sum_below_succ, IH, H; [reflexivity | lia | intros; apply H; lia].
Qed.

Lemma sum_below_add n m f :
  Spec.sum_below (n + m) f
  = (Spec.sum_below n f + Spec.sum_below m (fun j => f (n + j)%N))%Qc.
Proof.
  induction m as [|m IH] using N.peano_ind.
  - rewrite N.add_0_r, sum_below_0, Qcplus_0_r. reflexivity.
  - rewrite N.add_succ_r, !sum_below_succ, IH. ring.
Qed.

Lemma sum_below_mul a b f :
  Spec.sum_below (a * b) f
  = Spec.sum_below a (fun i => Spec.sum_below b (fun j => f (i * b + j))).
Proof.
  induction a as [|a IH] using N.peano_ind; [reflexivity|].
  rewrite N.mul_succ_l, sum_below_add, sum_below_succ, IH. reflexivity.
Qed.

Lemma fold_left_Qcplus_acc (l : list Qc) (a : Qc) :
  fold_left Qcplus l a = (a + fold_left Qcplus l 0)%Qc.
Proof.
  revert a; induction l as [|x l IH]; intros a; cbn [fold_left].
  - ring.
  - rewrite (IH (a + x)%Qc), (IH (0 + x)%Qc). ring.
Qed.

(** A left-to-right sum of a list is the sum of its entries by position. *)
Lemma fold_left_sum_below (l : list Qc) :
  fold_left Qcplus l 0%Qc
  = Spec.sum_below (N.of_nat (length l)) (fun i => nth (N.to_nat i) l 0%Qc).
Proof.
  induction l as [|x l IH] using rev_ind; [reflexivity|].
  rewrite fold_left_app, length_app. cbn [fold_left length].
  rewrite Nat.add_1_r, Nat2N.inj_succ, sum_below_succ.
  rewrite Nat2N.id, nth_middle. f_equal.
  rewrite IH. apply sum_below_ext. intros i Hi.
  rewrite app_nth1; [reflexivity | lia].
Qed.

Lemma nth_abs_diff (xs : list Qc) (ds : list Z) (i : nat) :
  length xs = length ds -> (i < length xs)%nat ->
  nth i (map Qcabs (zip_with (fun u v => (u - Qc_of_Z v)%Qc) xs ds)) 0%Qc
  = Qcabs (nth i xs 0%Qc - Qc_of_Z (nth i ds 0%Z)).
Proof.
  revert ds i; induction xs as [|x xs IH]; intros [|d ds] i Hl Hi;
    try discriminate; cbn [length] in Hi; [lia|].
  destruct i as [|i]; [reflexivity|].
  cbn [zip_with map nth]. apply IH; [injection Hl as ->; reflexivity | lia].
Qed.

(** ** Image._loss *)

(** The value the method computes, read off its steps. *)
Lemma Image_loss_value (self : Image.t) (x : ndarray Qc) :
  Image_inv self -> wf x ->
  fst (Image._loss x self)
  = if size x =? 256 * 256 * 3
    then Ok (fold_left Qcplus
               (map Qcabs (zip_with (fun u v => (u - Qc_of_Z v)%Qc)
                                    (elems x) (elems (Image.data self))))
               0%Qc)
    else Raise Spec.ShapeError.
Proof.
  intros [Hd Hp Hi Hs Hw] Hx. unfold Image._loss. cbn [fst].
  rewrite Hp, Hi, Hd, String.eqb_refl, Z.eqb_refl. cbn [py_assert]. rewrite bind_Ok.
  unfold np_reshape, reshape.
  change (size (ravel (np_array x))) with (size x * 1). rewrite N.mul_1_r.
  unfold np_array.
  rewrite (N.eqb_sym _ (size x)).
  change (numel [256; 256; 3]) with (256 * 256 * 3).
  destruct (size x =? 256 * 256 * 3) eqn:E; [|reflexivity].
  apply N.eqb_eq in E. rewrite bind_Ok. cbn [shape].
  unfold shape_eqb. rewrite bool_decide_eq_true_2 by reflexivity.
  cbn [py_assert]. rewrite !bind_Ok.
  unfold np_subtract. rewrite broadcast2_same.
  - rewrite bind_Ok. reflexivity.
  - unfold wf, size. cbn [shape elems]. rewrite Hx. exact E.
  - exact Hw.
  - cbn [shape]. symmetry. exact Hs.
Qed.

Lemma Qcabs_0 : Qcabs 0 = 0%Qc.
Proof. apply Qcabs_pos, Qcle_refl. Qed.

Lemma Qcabs_1 : Qcabs 1 = 1%Qc.
Proof. apply Qcabs_pos. discriminate. Qed.

Lemma Qc_of_Z_succ z : Qc_of_Z (Z.succ z) = (Qc_of_Z z + 1)%Qc.
Proof.
  unfold Qc_of_Z, Qcplus. apply Q2Qc_eq_iff.
  cbn [this Q2Qc]. rewrite !Qred_correct. unfold Z.succ. rewrite inject_Z_plus. reflexivity.
Qed.

(** Every entry equal to the target's: all differences vanish. *)
Lemma fold_abs_diff_same (ds : list Z) (acc : Qc) :
  fold_left Qcplus
    (map Qcabs (zip_with (fun u v => (u - Qc_of_Z v)%Qc) (map Qc_of_Z ds) ds)) acc
  = acc.
Proof.
  revert acc; induction ds as [|d ds IH]; intros acc; [reflexivity|].
  cbn [map zip_with fold_left]. rewrite IH.
  replace (Qc_of_Z d - Qc_of_Z d)%Qc with 0%Qc by ring.
  rewrite Qcabs_0. ring.
Qed.

(** Every entry one above the target's: each difference counts for one. *)
Lemma fold_abs_diff_plus_1 (ds : list Z) (acc : Qc) :
  fold_left Qcplus
    (map Qcabs (zip_with (fun u v => (u - Qc_of_Z v)%Qc)
                         (map (fun v => (Qc_of_Z v + 1)%Qc) ds) ds)) acc
  = (acc + Qc_of_Z (Z.of_nat (length ds)))%Qc.
Proof.
  revert acc; induction ds as [|d ds IH]; intros acc.
  - cbn [map zip_with fold_left length]. change (Qc_of_Z (Z.of_nat 0)) with 0%Qc. ring.
  - cbn [map zip_with fold_left length]. rewrite IH.
    replace (Qc_of_Z d + 1 - Qc_of_Z d)%Qc with 1%Qc by ring.
    rewrite Qcabs_1, Nat2Z.inj_succ, Qc_of_Z_succ. ring.
Qed.

Lemma Sample_world_colour : colour_asset Sample.world.
Proof.
  intros img H. injection H as <-. split.
  - vm_compute. reflexivity.
  - exists 4. split; [discriminate | reflexivity].
Qed.

Lemma Sample_image_init :
  Image.__init__ Sample.world "recovering" 0 = Ok Sample.image.
Proof. apply from_ok_eq. vm_compute. reflexivity. Qed.

Lemma Sample_point_wf : wf Sample.point.
Proof. vm_compute. reflexivity. Qed.

(** C1. For a well-formed candidate point, [Image._loss] returns what the
    spec's evaluate describes: when the point has 256*256*3 elements, the sum
    over all entries [i, j, k] of |point - target| against the stored target;
    otherwise the reshape error. *)
Theorem Image_loss_is_l1_distance (w : World) (pn : string) (idx : Z)
    (self : Image.t) (x : ndarray Qc) :
  colour_asset w ->
  Image.__init__ w pn idx = Ok self ->
  wf x ->
  fst (Image._loss x self) = Spec.recovery_evaluate (Image.data self) x.
Proof.
  intros Hw Hinit Hx.
  pose proof (Image_init_inv _ _ _ _ Hw Hinit) as Hinv.
  rewrite (Image_loss_value _ _ Hinv Hx). unfold Spec.recovery_evaluate.
  destruct (size x =? 256 * 256 * 3) eqn:E; [|reflexivity].
  apply N.eqb_eq in E. f_equal.
  destruct Hinv as [_ _ _ Hs Hd].
  assert (Hlx : N.of_nat (length (elems x)) = 256 * (256 * 3))
    by (rewrite Hx; exact E).
  assert (Hld : N.of_nat (length (elems (Image.data self))) = 256 * (256 * 3))
    by (rewrite Hd; unfold size; rewrite Hs; reflexivity).
  assert (Hl : length (elems x) = length (elems (Image.data self)))
    by (apply Nat2N.inj; congruence).
  rewrite fold_left_sum_below, length_map, length_zip_with, <- Hl, Nat.min_id, Hlx.
  rewrite sum_below_mul. apply sum_below_ext. intros i Hi.
  rewrite sum_below_mul. apply sum_below_ext. intros j Hj.
  apply sum_below_ext. intros k Hk.
  rewrite nth_abs_diff; [|exact Hl|lia].
  unfold Spec.entry.
  replace (i * (256 * 3) + (j * 3 + k)) with ((i * 256 + j) * 3 + k) by lia.
  reflexivity.
Qed.

Lemma Image_loss_is_l1_distance_witness :
  fst (Image._loss Sample.point Sample.image)
  = Spec.recovery_evaluate (Image.data Sample.image) Sample.point.
Proof.
  apply (Image_loss_is_l1_distance Sample.world "recovering" 0).
  - exact Sample_world_colour.
  - exact Sample_image_init.
  - exact Sample_point_wf.
Defined.

Lemma amap_wf {A B} (f : A -> B) (a : ndarray A) : wf a -> wf (amap f a).
Proof. unfold wf, size, amap. cbn [shape elems]. rewrite length_map. tauto. Qed.

(** C7. Evaluating a point of the domain shape twice on an [Image] object
    gives the same scalar both times: the first call returns a value and
    leaves the object as it was, and so does the second. *)
Theorem Image_loss_deterministic (w : World) (pn : string) (idx : Z)
    (self : Image.t) (x : ndarray Qc) :
  colour_asset w ->
  Image.__init__ w pn idx = Ok self ->
  wf x ->
  shape x = Image.domain_shape self ->
  exists v : Qc,
    Image._loss x self = (Ok v, self) /\
    Image._loss x (snd (Image._loss x self)) = (Ok v, self).
Proof.
  intros Hw Hinit Hx Hs.
  pose proof (Image_init_inv _ _ _ _ Hw Hinit) as Hinv.
  pose proof (Image_loss_value _ _ Hinv Hx) as Hv.
  assert (E : (size x =? 256 * 256 * 3) = true).
  { unfold size. rewrite Hs, (inv_domain_shape _ Hinv). reflexivity. }
  rewrite E in Hv.
  change (snd (Image._loss x self)) with self.
  eexists. split; (rewrite (surjective_pairing (Image._loss x self)), Hv; reflexivity).
Qed.

Lemma Image_loss_deterministic_witness :
  exists v : Qc,
    Image._loss (full [256; 256; 3] (dec 8 1)) Sample.image = (Ok v, Sample.image) /\
    Image._loss (full [256; 256; 3] (dec 8 1))
                (snd (Image._loss (full [256; 256; 3] (dec 8 1)) Sample.image))
    = (Ok v, Sample.image).
Proof.
  apply (Image_loss_deterministic Sample.world "recovering" 0).
  - exact Sample_world_colour.
  - exact Sample_image_init.
  - vm_compute. reflexivity.
  - rewrite (inv_domain_shape _ (Image_init_inv _ _ _ _ Sample_world_colour Sample_image_init)).
    reflexivity.
Defined.

(** C8. Evaluated at the stored target itself, [Image._loss] returns exactly
    0; evaluated at the point that is the target plus one at every
    coordinate, it returns exactly 256*256*3 = 196608. *)
Theorem Image_loss_target_and_shifted (w : World) (pn : string) (idx : Z)
    (self : Image.t) :
  colour_asset w ->
  Image.__init__ w pn idx = Ok self ->
  fst (Image._loss (amap Qc_of_Z (Image.data self)) self) = Ok 0%Qc /\
  fst (Image._loss (amap (fun v => (Qc_of_Z v + 1)%Qc) (Image.data self)) self)
  = Ok (Qc_of_Z 196608).
Proof.
  intros Hw Hinit.
  pose proof (Image_init_inv _ _ _ _ Hw Hinit) as Hinv.
  destruct Hinv as [Hd Hp Hi Hs Hwf] eqn:Einv. clear Einv.
  assert (E : forall B (f : Z -> B), (size (amap f (Image.data self)) =? 256 * 256 * 3) = true).
  { intros B f. unfold size, amap. cbn [shape]. rewrite Hs. reflexivity. }
  split.
  - rewrite Image_loss_value; [|split; assumption|apply amap_wf, Hwf].
    rewrite E. cbn [amap elems]. rewrite fold_abs_diff_same. reflexivity.
  - rewrite Image_loss_value; [|split; assumption|apply amap_wf, Hwf].
    rewrite E. cbn [amap elems]. rewrite fold_abs_diff_plus_1, Qcplus_0_l.
    rewrite <- nat_N_Z, Hwf. unfold size. rewrite Hs. reflexivity.
Qed.

Lemma Image_loss_target_and_shifted_witness :
  fst (Image._loss (amap Qc_of_Z (Image.data Sample.image)) Sample.image) = Ok 0%Qc /\
  fst (Image._loss (amap (fun v => (Qc_of_Z v + 1)%Qc) (Image.data Sample.image))
                   Sample.image)
  = Ok (Qc_of_Z 196608).
Proof.
  apply (Image_loss_target_and_shifted Sample.world "recovering" 0).
  - exact Sample_world_colour.
  - exact Sample_image_init.
Defined.

(** ** ImageAdversarial *)

Lemma set_mutation_inv s a a' :
  p.set_mutation s a = Ok a' ->
  Qc_leb s 0 = false /\
  a' = p.mk_Array (p.init a) (p.mutable_sigma a) (Some s) (p.bounds a)
                  (p.recombination a) (p.name a).
Proof.
  unfold p.set_mutation. destruct (Qc_leb s 0); [discriminate|].
  intros H. injection H as <-. auto.
Qed.

Lemma set_bounds_inv lo hi m frs a a' :
  p.set_bounds lo hi m frs a = Ok a' ->
  Qc_ltb hi lo = false /\
  a' = p.mk_Array (p.init a) (p.mutable_sigma a) (p.sigma a)
                  (Some (p.mk_Bounds lo hi m frs)) (p.recombination a) (p.name a).
Proof.
  unfold p.set_bounds. destruct (Qc_ltb hi lo); [discriminate|].
  intros H. injection H as <-. auto.
Qed.

Lemma Qc_leb_le x y : Qc_leb x y = true <-> (x <= y)%Qc.
Proof. unfold Qc_leb, Qcle. apply Qle_bool_iff. Qed.

Lemma Qc_div_10_nonpos (e : Qc) : (e <= 0)%Qc -> (e / dec 10 1 <= 0)%Qc.
Proof.
  intros H. unfold Qcdiv.
  replace 0%Qc with (0 * / dec 10 1)%Qc by ring.
  apply Qcmult_le_compat_r; [exact H | discriminate].
Qed.

Lemma Qc_div_10_pos (e : Qc) : Qc_leb (e / dec 10 1) 0 = false -> (0 < e)%Qc.
Proof.
  intros H. apply Qcnot_le_lt. intros Hle.
  apply Qc_div_10_nonpos, Qc_leb_le in Hle. congruence.
Qed.

(** What the constructor of [ImageAdversarial] establishes. *)
Lemma ImageAdversarial_init_inv w cls img lbl tg eps self :
  ImageAdversarial.__init__ w cls img lbl tg eps = Ok self ->
  ImageAdversarial.targeted self = tg /\
  ImageAdversarial.epsilon self = eps /\
  ImageAdversarial.image self = img /\
  ImageAdversarial.label self = mk_ndarray [1] [lbl] /\
  ImageAdversarial.classifier self = cls /\
  ImageAdversarial.criterion self = cross_entropy w /\
  (exists d0 rest, shape img = d0 :: ImageAdversarial.imsize self :: rest) /\
  (0 < eps)%Qc /\
  shape (p.init (base.parametrization (ImageAdversarial.super self))) = shape img.
Proof.
  intros H. unfold ImageAdversarial.__init__ in H. cbv zeta in H.
  bind_inv H. bind_inv H. bind_inv H. injection H as <-.
  apply set_mutation_inv in Ha0 as [Hs ->].
  apply set_bounds_inv in Ha1 as [Hb ->].
  cbn. repeat split; try reflexivity.
  - destruct (shape img) as [|d0 [|d1 rest]]; try discriminate.
    injection Ha as <-. eauto.
  - apply Qc_div_10_pos, Hs.
Qed.

Lemma map_zip_with_compose {A B C D} (g : C -> D) (f : A -> B -> C) l k :
  map g (zip_with f l k) = zip_with (fun a b => g (f a b)) l k.
Proof.
  revert k; induction l as [|a l IH]; intros [|b k]; cbn [zip_with map];
    try reflexivity. rewrite IH. reflexivity.
Qed.

Lemma zip_with_replicate_0 (g : Qc -> Qc) (l : list Qc) :
  zip_with (fun b d => g (b + d)%Qc) l (replicate (length l) 0%Qc) = map g l.
Proof.
  induction l as [|a l IH]; [reflexivity|].
  cbn [length replicate zip_with map]. rewrite IH, Qcplus_0_r. reflexivity.
Qed.

(** The steps of [ImageAdversarial._loss] on a point of the image's shape:
    the sum and the clamp go through, and the view decides. *)
Lemma ImageAdversarial_loss_steps (self : ImageAdversarial.t) (x : ndarray Qc) c h wd :
  shape (ImageAdversarial.image self) = [c; h; wd] ->
  ImageAdversarial.imsize self = h ->
  wf (ImageAdversarial.image self) -> wf x ->
  shape x = shape (ImageAdversarial.image self) ->
  fst (ImageAdversarial._loss x self)
  = if c * h * wd =? 3 * h * h
    then
      output_adv ← nn_call (ImageAdversarial.classifier self)
        (mk_ndarray [1; 3; h; h]
           (zip_with (fun b d => clamp1 0%Qc 1%Qc (b + d)%Qc)
                     (elems (ImageAdversarial.image self)) (elems x)));
      value ← ImageAdversarial.criterion self output_adv (ImageAdversarial.label self);
      Ok (value * (if ImageAdversarial.targeted self then 1 else - (1)))%Qc
    else Raise RuntimeError.
Proof.
  intros Hs Hi Hw Hx Hsx. unfold ImageAdversarial._loss, torch_Tensor. cbn [fst].
  unfold torch_add. rewrite broadcast2_same by (auto; congruence).
  rewrite bind_Ok, Hi. unfold torch_view, reshape.
  unfold size, torch_clamp, amap. cbn [shape elems]. rewrite Hs.
  replace (numel [1; 3; h; h] =? numel [c; h; wd]) with (c * h * wd =? 3 * h * h).
  - destruct (c * h * wd =? 3 * h * h); [|reflexivity].
    rewrite bind_Ok, map_zip_with_compose. reflexivity.
  - cbn [numel fold_right]. rewrite N.eqb_sym. f_equal; lia.
Qed.

Lemma Sample_adversarial_init img tg :
  is_ok (ImageAdversarial.__init__ Sample.world Sample.classifier img 5 tg (dec 5 100)) = true ->
  ImageAdversarial.__init__ Sample.world Sample.classifier img 5 tg (dec 5 100)
  = Ok (Sample.adversarial img tg).
Proof. apply from_ok_eq. Qed.

(** C2. On a square three-channel base image and a perturbation of its
    shape, [ImageAdversarial._loss] is the spec's evaluate: the classifier
    runs on clamp(baseImage + point, 0, 1), the cross-entropy against the
    stored label is taken and returned as it is when targeted, negated when
    not.  In particular, at the zero perturbation the result is the
    cross-entropy of the classifier on the clamped base image, negated
    when the objective is untargeted. *)
Theorem ImageAdversarial_loss_spec (w : World) (cls : nn_Module)
    (img : ndarray Qc) (lbl : Z) (tg : bool) (eps : Qc)
    (self : ImageAdversarial.t) (x : ndarray Qc) (s : N) :
  ImageAdversarial.__init__ w cls img lbl tg eps = Ok self ->
  shape img = [3; s; s] ->
  wf img -> wf x -> shape x = shape img ->
  fst (ImageAdversarial._loss x self) = Spec.adversarial_evaluate self x /\
  fst (ImageAdversarial._loss (np_zeros (shape img)) self)
  = (logits ← nn_call cls (mk_ndarray [1; 3; s; s] (map (clamp1 0%Qc 1%Qc) (elems img)));
     loss ← cross_entropy w logits (mk_ndarray [1] [lbl]);
     Ok (if tg then loss else (- loss)%Qc)).
Proof.
  intros Hinit Hs Hw Hx Hsx.
  destruct (ImageAdversarial_init_inv _ _ _ _ _ _ _ Hinit)
    as (Htg & _ & Himg & Hlbl & Hcls & Hcrit & (d0 & rest & Hims) & _ & _).
  rewrite Hs in Hims. injection Hims as _ Hims _.
  assert (Hsign : forall v : Qc,
             (v * (if ImageAdversarial.targeted self then 1 else - (1)))%Qc
             = if ImageAdversarial.targeted self then v else (- v)%Qc).
  { intros v. destruct (ImageAdversarial.targeted self); ring. }
  assert (Hgen : forall y, wf y -> shape y = shape img ->
             fst (ImageAdversarial._loss y self) = Spec.adversarial_evaluate self y).
  { intros y Hy Hsy.
    rewrite (ImageAdversarial_loss_steps self y 3 s s); rewrite ?Himg; auto.
    rewrite N.eqb_refl. unfold Spec.adversarial_evaluate. cbv zeta.
    rewrite Himg, Hs.
    destruct (nn_call _ _) as [out|e]; [|reflexivity]. rewrite !bind_Ok.
    destruct (ImageAdversarial.criterion self out _) as [v|e]; [|reflexivity].
    rewrite !bind_Ok, Hsign. reflexivity. }
  split; [apply Hgen; assumption|].
  rewrite Hgen.
  - unfold Spec.adversarial_evaluate. cbv zeta.
    rewrite Himg, Hcls, Hcrit, Hlbl, Htg, Hs.
    unfold np_zeros, full. cbn [elems].
    rewrite <- Hs, <- (wf_length _ Hw), zip_with_replicate_0. reflexivity.
  - unfold wf, size, np_zeros, full. cbn [shape elems].
    rewrite length_replicate. apply N2Nat.id.
  - reflexivity.
Qed.

Lemma ImageAdversarial_loss_spec_witness :
  fst (ImageAdversarial._loss Sample.perturbation
         (Sample.adversarial Sample.square_image false))
  = Spec.adversarial_evaluate (Sample.adversarial Sample.square_image false)
      Sample.perturbation /\
  fst (ImageAdversarial._loss (np_zeros (shape Sample.square_image))
         (Sample.adversarial Sample.square_image false))
  = (logits ← nn_call Sample.classifier
                (mk_ndarray [1; 3; 2; 2]
                   (map (clamp1 0%Qc 1%Qc) (elems Sample.square_image)));
     loss ← cross_entropy Sample.world logits (mk_ndarray [1] [5%Z]);
     Ok (if false then loss else (- loss)%Qc)).
Proof.
  apply (ImageAdversarial_loss_spec Sample.world Sample.classifier
           Sample.square_image 5 false (dec 5 100)).
  - apply Sample_adversarial_init. vm_compute. reflexivity.
  - reflexivity.
  - vm_compute. reflexivity.
  - vm_compute. reflexivity.
  - reflexivity.
Defined.

(** C10. [ImageAdversarial._loss] takes the base image for square: with a
    base image of shape (3, h, wd) the side it views the perturbed image
    with is [h], the image's second dimension; on a point of the image's
    shape the sum goes through and the view to (1, 3, h, h) is refused
    exactly when h * wd differs from h * h, in which case the evaluation
    fails there; for a square image the view succeeds and the evaluation
    goes on to the classifier. *)
Theorem ImageAdversarial_loss_assumes_square (w : World) (cls : nn_Module)
    (img : ndarray Qc) (lbl : Z) (tg : bool) (eps : Qc)
    (self : ImageAdversarial.t) (x : ndarray Qc) (h wd : N) :
  ImageAdversarial.__init__ w cls img lbl tg eps = Ok self ->
  shape img = [3; h; wd] ->
  wf img -> wf x -> shape x = shape img ->
  ImageAdversarial.imsize self = h /\
  exists sum : ndarray Qc,
    torch_add (ImageAdversarial.image self) x = Ok sum /\
    torch_view (torch_clamp sum 0%Qc 1%Qc)
               [1; 3; ImageAdversarial.imsize self; ImageAdversarial.imsize self]
    = (if h * wd =? h * h
       then Ok (mk_ndarray [1; 3; h; h] (elems (torch_clamp sum 0%Qc 1%Qc)))
       else Raise RuntimeError) /\
    fst (ImageAdversarial._loss x self)
    = (if h * wd =? h * h
       then
         output_adv ← nn_call cls (mk_ndarray [1; 3; h; h]
                                     (elems (torch_clamp sum 0%Qc 1%Qc)));
         value ← cross_entropy w output_adv (mk_ndarray [1] [lbl]);
         Ok (value * (if tg then 1 else - (1)))%Qc
       else Raise RuntimeError).
Proof.
  intros Hinit Hs Hw Hx Hsx.
  destruct (ImageAdversarial_init_inv _ _ _ _ _ _ _ Hinit)
    as (Htg & _ & Himg & Hlbl & Hcls & Hcrit & (d0 & rest & Hims) & _ & _).
  rewrite Hs in Hims. injection Hims as _ Hims _. symmetry in Hims.
  assert (Hb : (3 * h * wd =? 3 * h * h) = (h * wd =? h * h)).
  { destruct (N.eqb_spec (3 * h * wd) (3 * h * h)), (N.eqb_spec (h * wd) (h * h));
      try reflexivity; exfalso; nia. }
  split; [exact Hims|].
  eexists. split; [|split].
  - unfold torch_add. rewrite Himg. apply broadcast2_same; auto.
  - rewrite Hims, Hs. unfold torch_view, reshape, size, torch_clamp, amap.
    cbn [shape elems numel fold_right].
    rewrite <- Hb. rewrite (N.eqb_sym (3 * h * wd)).
    replace (1 * (3 * (h * (h * 1)))) with (3 * h * h) by lia.
    replace (3 * (h * (wd * 1))) with (3 * h * wd) by lia.
    reflexivity.
  - rewrite (ImageAdversarial_loss_steps self x 3 h wd); rewrite ?Himg; auto.
    rewrite Hb, Hcls, Hcrit, Hlbl, Htg. cbn [torch_clamp amap elems].
    rewrite map_zip_with_compose. reflexivity.
Qed.

Lemma ImageAdversarial_loss_assumes_square_witness :
  ImageAdversarial.imsize (Sample.adversarial Sample.wide_image false) = 2 /\
  exists sum : ndarray Qc,
    torch_add (ImageAdversarial.image (Sample.adversarial Sample.wide_image false))
              (np_zeros [3; 2; 3]) = Ok sum /\
    torch_view (torch_clamp sum 0%Qc 1%Qc)
               [1; 3; ImageAdversarial.imsize (Sample.adversarial Sample.wide_image false);
                ImageAdversarial.imsize (Sample.adversarial Sample.wide_image false)]
    = Raise RuntimeError /\
    fst (ImageAdversarial._loss (np_zeros [3; 2; 3])
           (Sample.adversarial Sample.wide_image false))
    = Raise RuntimeError.
Proof.
  apply (ImageAdversarial_loss_assumes_square Sample.world Sample.classifier
           Sample.wide_image 5 false (dec 5 100)
           (Sample.adversarial Sample.wide_image false) (np_zeros [3; 2; 3]) 2 3).
  - apply Sample_adversarial_init. vm_compute. reflexivity.
  - reflexivity.
  - vm_compute. reflexivity.
  - vm_compute. reflexivity.
  - reflexivity.
Defined.

(** C4. Constructing an [ImageAdversarial] on a base image of at least two
    dimensions fails with ConfigError whenever epsilon is not greater than
    0; and whenever it succeeds, epsilon is positive and the perturbation
    domain has the shape of the base image. *)
Theorem ImageAdversarial_init_requires_positive_epsilon (w : World)
    (cls : nn_Module) (img : ndarray Qc) (lbl : Z) (tg : bool) (eps : Qc) :
  (2 <= length (shape img))%nat ->
  ((eps <= 0)%Qc ->
   ImageAdversarial.__init__ w cls img lbl tg eps = Raise ConfigError) /\
  (forall self,
     ImageAdversarial.__init__ w cls img lbl tg eps = Ok self ->
     (0 < eps)%Qc /\
     shape (p.init (base.parametrization (ImageAdversarial.super self)))
     = shape (ImageAdversarial.image self)).
Proof.
  intros Hrank. split.
  - intros Heps. unfold ImageAdversarial.__init__. cbv zeta.
    destruct (shape img) as [|d0 [|d1 rest]]; cbn [length] in Hrank; try lia.
    rewrite bind_Ok. unfold p.set_mutation.
    apply Qc_div_10_nonpos, Qc_leb_le in Heps. rewrite Heps. reflexivity.
  - intros self Hinit.
    destruct (ImageAdversarial_init_inv _ _ _ _ _ _ _ Hinit)
      as (_ & _ & Himg & _ & _ & _ & _ & Hpos & Hshape).
    rewrite Himg. auto.
Qed.

Lemma ImageAdversarial_init_requires_positive_epsilon_witness :
  ImageAdversarial.__init__ Sample.world Sample.classifier Sample.square_image
    5 false (dec (-1) 20) = Raise ConfigError /\
  ImageAdversarial.__init__ Sample.world Sample.classifier Sample.square_image
    5 false 0%Qc = Raise ConfigError.
Proof.
  split.
  - apply (ImageAdversarial_init_requires_positive_epsilon Sample.world
             Sample.classifier Sample.square_image 5 false (dec (-1) 20)).
    + vm_compute. lia.
    + vm_compute. discriminate.
  - apply (ImageAdversarial_init_requires_positive_epsilon Sample.world
             Sample.classifier Sample.square_image 5 false 0%Qc).
    + vm_compute. lia.
    + vm_compute. discriminate.
Defined.

(** ** The generator *)

Lemma body_unknown globals w name :
  name <> "test" -> name <> "imagenet" ->
  ImageAdversarial.body globals w name
  = Raise (ValueError ("Unknown benchmark case " ++ ImageAdversarial.quote
                         ++ name ++ ImageAdversarial.quote)).
Proof.
  intros H1 H2. unfold ImageAdversarial.body. cbv zeta.
  apply String.eqb_neq in H1, H2. rewrite H1, H2. reflexivity.
Qed.

(** C5, as the claim has it: the call itself would fail with ValueError.
    It does not: calling the generator function hands back a generator. *)
Lemma make_benchmark_functions_call_does_not_raise :
  ~ (forall name,
       name <> "test" -> name <> "imagenet" ->
       exists msg, ImageAdversarial.make_benchmark_functions name
                   = Raise (ValueError msg)).
Proof.
  intros H. destruct (H "nonsense") as [msg Hmsg]; discriminate.
Qed.

(** C5, amended. For every name other than "test" and "imagenet", the call
    of [make_benchmark_functions] returns a generator without raising; the
    first [next] on it raises the ValueError of the unknown benchmark and
    ends the generator, so that iterating it yields no instance. *)
Theorem make_benchmark_functions_unknown_name (globals : gmap string pyval)
    (w : World) (name : string) :
  name <> "test" -> name <> "imagenet" ->
  let err := ValueError ("Unknown benchmark case " ++ ImageAdversarial.quote
                           ++ name ++ ImageAdversarial.quote) in
  ImageAdversarial.make_benchmark_functions name = Ok (ImageAdversarial.Created name) /\
  ImageAdversarial.next globals w (ImageAdversarial.Created name)
  = (Raise err, ImageAdversarial.Finished) /\
  forall fuel,
    ImageAdversarial.iterate (S fuel) globals w (ImageAdversarial.Created name)
    = Some ([], Some err).
Proof.
  intros H1 H2 err. split; [reflexivity|].
  assert (Hn : ImageAdversarial.next globals w (ImageAdversarial.Created name)
               = (Raise err, ImageAdversarial.Finished)).
  { unfold ImageAdversarial.next. rewrite body_unknown by assumption. reflexivity. }
  split; [exact Hn|].
  intros fuel. cbn [ImageAdversarial.iterate]. rewrite Hn. reflexivity.
Qed.

Lemma make_benchmark_functions_unknown_name_witness :
  ImageAdversarial.make_benchmark_functions "nonsense"
  = Ok (ImageAdversarial.Created "nonsense") /\
  ImageAdversarial.next ImageAdversarial.core_globals Sample.world
    (ImageAdversarial.Created "nonsense")
  = (Raise (ValueError ("Unknown benchmark case " ++ ImageAdversarial.quote
                          ++ "nonsense" ++ ImageAdversarial.quote)),
     ImageAdversarial.Finished) /\
  forall fuel,
    ImageAdversarial.iterate (S fuel) ImageAdversarial.core_globals Sample.world
      (ImageAdversarial.Created "nonsense")
    = Some ([], Some (ValueError ("Unknown benchmark case " ++ ImageAdversarial.quote
                                    ++ "nonsense" ++ ImageAdversarial.quote))).
Proof.
  apply (make_benchmark_functions_unknown_name ImageAdversarial.core_globals
           Sample.world "nonsense"); discriminate.
Defined.

(** C9. Whatever the outside world holds, the first [next] on the generator
    of "imagenet" raises and ends it, and iterating it yields no instance:
    once the pretrained network is there the read of [data_folder], a name
    the module never binds, raises NameError; before that only the failure
    to get the network can. *)
Theorem make_benchmark_functions_imagenet_raises (w : World) :
  let err := match resnet50 w with
             | Ok _ => NameError "data_folder"
             | Raise e => ImageAdversarial.escaping e
             end in
  err <> StopIteration /\
  ImageAdversarial.make_benchmark_functions "imagenet"
  = Ok (ImageAdversarial.Created "imagenet") /\
  ImageAdversarial.next ImageAdversarial.core_globals w
    (ImageAdversarial.Created "imagenet")
  = (Raise err, ImageAdversarial.Finished) /\
  forall fuel,
    ImageAdversarial.iterate (S fuel) ImageAdversarial.core_globals w
      (ImageAdversarial.Created "imagenet")
    = Some ([], Some err).
Proof.
  intros err.
  assert (Herr : err <> StopIteration).
  { subst err. destruct (resnet50 w) as [m|[]]; discriminate. }
  assert (Hn : ImageAdversarial.next ImageAdversarial.core_globals w
                 (ImageAdversarial.Created "imagenet")
               = (Raise err, ImageAdversarial.Finished)).
  { subst err. unfold ImageAdversarial.next, ImageAdversarial.body. cbv zeta.
    change (String.eqb "imagenet" "test") with false.
    change (String.eqb "imagenet" "imagenet") with true. cbv iota.
    unfold Resnet50.__init__. cbv zeta.
    destruct (resnet50 w) as [m|e]; [|reflexivity].
    rewrite !bind_Ok.
    replace (ImageAdversarial.lookup_global ImageAdversarial.core_globals "data_folder")
      with (@Raise pyval (NameError "data_folder")) by (vm_compute; reflexivity).
    reflexivity. }
  split; [exact Herr|]. split; [reflexivity|]. split; [exact Hn|].
  intros fuel. cbn [ImageAdversarial.iterate]. rewrite Hn.
  destruct err; try reflexivity. contradiction.
Qed.

Lemma with_tag_Ok w tags k func :
  ImageAdversarial.construct w k = Ok func ->
  exists tagged,
    ImageAdversarial._with_tag w tags k = Ok tagged /\
    ImageAdversarial.targeted tagged = ImageAdversarial.targeted func /\
    ImageAdversarial.epsilon tagged = ImageAdversarial.epsilon func /\
    ImageAdversarial.image tagged = ImageAdversarial.image func /\
    ImageAdversarial.label tagged = ImageAdversarial.label func /\
    ImageAdversarial.classifier tagged = ImageAdversarial.classifier func /\
    base._descriptors (ImageAdversarial.super tagged)
    = base.update (PyStr <$> tags) (base._descriptors (ImageAdversarial.super func)).
Proof.
  intros H. unfold ImageAdversarial._with_tag. rewrite H, bind_Ok. cbv zeta.
  unfold ImageAdversarial.construct, ImageAdversarial.__init__ in H. cbv zeta in H.
  bind_inv H. bind_inv H. bind_inv H. injection H as <-.
  cbn. eexists. split; [reflexivity|]. cbn. repeat split; reflexivity.
Qed.

(** C6. For the name "test" the generator yields exactly one instance and is
    then exhausted.  The instance is built from the linear test classifier
    for 224 x 224 images over the random image, with label 0, untargeted, and
    its descriptors carry the tag benchmark = "test". *)
Theorem make_benchmark_functions_test (globals : gmap string pyval) (w : World) :
  shape (torch_rand w [3; 224; 224]) = [3; 224; 224] ->
  exists func : ImageAdversarial.t,
    ImageAdversarial.make_benchmark_functions "test"
    = Ok (ImageAdversarial.Created "test") /\
    ImageAdversarial.next globals w (ImageAdversarial.Created "test")
    = (Ok func, ImageAdversarial.Suspended ImageAdversarial.YieldTest) /\
    ImageAdversarial.next globals w (ImageAdversarial.Suspended ImageAdversarial.YieldTest)
    = (Raise StopIteration, ImageAdversarial.Finished) /\
    (forall fuel,
       ImageAdversarial.iterate (S (S fuel)) globals w (ImageAdversarial.Created "test")
       = Some ([func], None)) /\
    ImageAdversarial.classifier func
    = OfTestClassifier (TestClassifier.mk (nn_Linear w (224 * 224 * 3) 10)) /\
    ImageAdversarial.image func = torch_rand w [3; 224; 224] /\
    ImageAdversarial.label func = mk_ndarray [1] [0%Z] /\
    ImageAdversarial.targeted func = false /\
    base._descriptors (ImageAdversarial.super func) !! "benchmark" = Some (PyStr "test").
Proof.
  intros Hshape.
  set (cls := OfTestClassifier (TestClassifier.__init__ (nn_Linear w) 224)).
  set (k := ImageAdversarial.mk_kwargs cls (torch_rand w [3; 224; 224])
              (Some 0%Z) (Some false) None).
  destruct (ImageAdversarial.construct w k) as [func|e] eqn:Hc.
  2:{ exfalso. unfold ImageAdversarial.construct, ImageAdversarial.__init__ in Hc.
      cbv zeta in Hc. cbn [ImageAdversarial.kw_image k] in Hc.
      rewrite Hshape, bind_Ok in Hc.
      unfold p.set_mutation, p.set_bounds in Hc.
      cbn [ImageAdversarial.kw_epsilon k default] in Hc.
      change (Qc_leb (dec 5 100 / dec 10 1) 0) with false in Hc.
      change (Qc_ltb (dec 5 100) (- dec 5 100)) with false in Hc.
      discriminate. }
  destruct (with_tag_Ok w {[ "benchmark" := "test" ]} k func Hc)
    as (tagged & Htag & Htg & _ & Himg & Hlbl & Hcls & Hdesc).
  destruct (ImageAdversarial_init_inv _ _ _ _ _ _ _ Hc)
    as (Htg' & _ & Himg' & Hlbl' & Hcls' & _).
  assert (Hn : ImageAdversarial.next globals w (ImageAdversarial.Created "test")
               = (Ok tagged, ImageAdversarial.Suspended ImageAdversarial.YieldTest)).
  { unfold ImageAdversarial.next, ImageAdversarial.body. cbv zeta.
    change (String.eqb "test" "test") with true. cbv iota.
    fold cls. fold k. rewrite Htag. reflexivity. }
  exists tagged. repeat split.
  - exact Hn.
  - intros fuel. cbn [ImageAdversarial.iterate]. rewrite Hn. reflexivity.
  - rewrite Hcls, Hcls'. reflexivity.
  - rewrite Himg, Himg'. reflexivity.
  - rewrite Hlbl, Hlbl'. reflexivity.
  - rewrite Htg, Htg'. reflexivity.
  - rewrite Hdesc. unfold base.update.
    apply lookup_union_Some_l. rewrite lookup_fmap, lookup_singleton_eq. reflexivity.
Qed.

Lemma make_benchmark_functions_test_witness :
  exists func : ImageAdversarial.t,
    ImageAdversarial.make_benchmark_functions "test"
    = Ok (ImageAdversarial.Created "test") /\
    ImageAdversarial.next ImageAdversarial.core_globals Sample.world
      (ImageAdversarial.Created "test")
    = (Ok func, ImageAdversarial.Suspended ImageAdversarial.YieldTest) /\
    ImageAdversarial.next ImageAdversarial.core_globals Sample.world
      (ImageAdversarial.Suspended ImageAdversarial.YieldTest)
    = (Raise StopIteration, ImageAdversarial.Finished) /\
    (forall fuel,
       ImageAdversarial.iterate (S (S fuel)) ImageAdversarial.core_globals Sample.world
         (ImageAdversarial.Created "test")
       = Some ([func], None)) /\
    ImageAdversarial.classifier func
    = OfTestClassifier (TestClassifier.mk (nn_Linear Sample.world (224 * 224 * 3) 10)) /\
    ImageAdversarial.image func = torch_rand Sample.world [3; 224; 224] /\
    ImageAdversarial.label func = mk_ndarray [1] [0%Z] /\
    ImageAdversarial.targeted func = false /\
    base._descriptors (ImageAdversarial.super func) !! "benchmark" = Some (PyStr "test").
Proof.
  apply (make_benchmark_functions_test ImageAdversarial.core_globals Sample.world).
  reflexivity.
Defined.

(** Whatever the name, the namespace and the world, a generator of
    [make_benchmark_functions] yields at most one instance. *)
Lemma generator_yields_at_most_once globals w name fuel l e :
  ImageAdversarial.iterate fuel globals w (ImageAdversarial.Created name) = Some (l, e) ->
  (length l <= 1)%nat.
Proof.
  destruct fuel as [|fuel]; [discriminate|]. cbn [ImageAdversarial.iterate].
  destruct (ImageAdversarial.next globals w (ImageAdversarial.Created name))
    as [[func|err] g] eqn:Hn.
  - assert (Hg : exists pt, g = ImageAdversarial.Suspended pt).
    { unfold ImageAdversarial.next in Hn.
      destruct (ImageAdversarial.body globals w name) as [[f pt]|e']; [|discriminate].
      injection Hn as _ <-. eauto. }
    destruct Hg as [pt ->].
    destruct fuel as [|fuel]; [discriminate|]. cbn [ImageAdversarial.iterate ImageAdversarial.next].
    intros H. injection H as <- _. cbn [length]. lia.
  - intros H. assert (l = []) as -> by (destruct err; injection H as <- _; reflexivity).
    cbn [length]. lia.
Qed.

(** C3, on the code. With two correctly classified images in the data folder
    the generator of "imagenet" yields no instance: its first [next] raises
    NameError on [data_folder].  Were that name bound, it would yield one
    instance, for the last of the two images: the [yield] stands after the
    loop, not in it. *)
Theorem make_benchmark_functions_imagenet_misses_instances :
  Sample.labels
    (ImageAdversarial.iterate 3 ImageAdversarial.core_globals Sample.imagenet_world
       (ImageAdversarial.Created "imagenet"))
  = Some ([], Some (NameError "data_folder")) /\
  Sample.labels
    (ImageAdversarial.iterate 3 Sample.patched_globals Sample.imagenet_world
       (ImageAdversarial.Created "imagenet"))
  = Some ([[1%Z]], None).
Proof. split; vm_compute; reflexivity. Qed.

(** * Further properties of the code *)

(** ** The constructor of [Image] *)

(** X1. The constructor of [Image] succeeds only on the problem "recovering"
    with index 0 and an asset that decodes to an array of at least three
    axes, and then stores that array cut to three channels; otherwise it
    raises AssertionError for another problem or index, else whatever the
    decoding raised, else IndexError. *)
Theorem Image_init_outcome (w : World) (pn : string) (idx : Z) :
  match Image.__init__ w pn idx with
  | Ok self =>
      pn = "recovering" /\ idx = 0%Z /\
      exists img, pil_open_resize w Image.asset (256, 256) = Ok img /\
                  (3 <= length (shape img))%nat /\
                  take_axis2 3 img = Ok (Image.data self)
  | Raise e =>
      e = if negb (String.eqb pn "recovering") || negb (idx =? 0)%Z
          then AssertionError
          else match pil_open_resize w Image.asset (256, 256) with
               | Raise e' => e'
               | Ok img => IndexError
               end
  end.
Proof.
  unfold Image.__init__. cbv zeta.
  destruct (String.eqb_spec pn "recovering") as [->|Hpn]; cbn [py_assert negb orb];
    [|reflexivity].
  rewrite bind_Ok.
  destruct (Z.eqb_spec idx 0) as [->|Hidx]; cbn [py_assert negb]; [|reflexivity].
  rewrite bind_Ok.
  change (nth 0 [256; 256; 3] 0, nth 1 [256; 256; 3] 0) with (256, 256).
  destruct (pil_open_resize w Image.asset (256, 256)) as [img|e]; [|reflexivity].
  rewrite bind_Ok. unfold take_axis2.
  destruct (shape img) as [|d0 [|d1 [|d2 rest]]] eqn:Hs; try reflexivity.
  rewrite bind_Ok. unfold p.set_mutation.
  change (Qc_leb (dec 35 1) 0) with false. cbv iota. rewrite bind_Ok.
  unfold p.set_bounds.
  change (Qc_ltb (dec 25599 100) 0) with false. cbv iota. rewrite bind_Ok.
  cbn [Image.data]. repeat split. exists img. rewrite Hs.
  repeat split. cbn [length]. lia.
Qed.

Lemma nth_concat_take_chunks {A} (d : A) m n k (l : list A) q r :
  (m <= n)%nat -> length l = (k * n)%nat -> (q < k)%nat -> (r < m)%nat ->
  nth (q * m + r) (concat (map (take m) (chunks n k l))) d = nth (q * n + r) l d.
Proof.
  intros Hm. revert l q; induction k as [|k IH]; intros l q Hl Hq Hr; [lia|].
  cbn [chunks map concat].
  assert (Hlen : length (take m (take n l)) = m).
  { rewrite !length_take, Hl. cbn [Nat.mul]. lia. }
  destruct q as [|q].
  - cbn [Nat.mul Nat.add]. rewrite app_nth1 by lia.
    rewrite !nth_firstn.
    destruct (Nat.ltb_spec r m); [|lia]. destruct (Nat.ltb_spec r n); [reflexivity|lia].
  - replace (S q * m + r)%nat with (length (take m (take n l)) + (q * m + r))%nat
      by (rewrite Hlen; cbn [Nat.mul]; lia).
    rewrite app_nth2_plus, IH; [|rewrite length_drop, Hl; cbn [Nat.mul]; lia|lia|lia].
    rewrite nth_skipn. f_equal. cbn [Nat.mul]. lia.
Qed.

(** The same with binary numbers, which is how shapes count. *)
Lemma nth_concat_take_chunks_N {A} (d : A) (m n k : N) (l : list A) (q r : N) :
  m <= n -> N.of_nat (length l) = k * n -> q < k -> r < m ->
  nth (N.to_nat (q * m + r))
      (concat (map (take (N.to_nat m)) (chunks (N.to_nat n) (N.to_nat k) l))) d
  = nth (N.to_nat (q * n + r)) l d.
Proof.
  intros Hm Hl Hq Hr.
  rewrite !N2Nat.inj_add, !N2Nat.inj_mul.
  apply nth_concat_take_chunks.
  - lia.
  - rewrite <- N2Nat.inj_mul, <- Hl, Nat2N.id. reflexivity.
  - lia.
  - lia.
Qed.

Lemma Ok_inj {A} (a b : A) : Ok a = Ok b -> a = b.
Proof. intros H. injection H as ->. reflexivity. Qed.

Lemma Image_init_data w pn idx self img :
  Image.__init__ w pn idx = Ok self ->
  pil_open_resize w Image.asset (256, 256) = Ok img ->
  take_axis2 3 img = Ok (Image.data self).
Proof.
  intros H Himg. unfold Image.__init__ in H. cbv zeta in H.
  bind_inv H. bind_inv H. bind_inv H. bind_inv H. bind_inv H. bind_inv H.
  apply Ok_inj in H. subst self. cbn [Image.data].
  change (nth 0 [256; 256; 3] 0, nth 1 [256; 256; 3] 0) with (256, 256) in Ha1.
  rewrite Himg in Ha1. apply Ok_inj in Ha1. subst a1. exact Ha2.
Qed.

(** X2. The stored target is the decoded asset without its channels beyond the
    third: entry [i, j, k] of the target is entry [i, j, k] of the asset,
    whatever number [c] of channels (at least three) the asset has. *)
Theorem Image_data_drops_alpha (w : World) (pn : string) (idx : Z)
    (self : Image.t) (img : ndarray Z) (c i j k : N) :
  Image.__init__ w pn idx = Ok self ->
  pil_open_resize w Image.asset (256, 256) = Ok img ->
  wf img -> shape img = [256; 256; c] -> 3 <= c ->
  i < 256 -> j < 256 -> k < 3 ->
  Spec.entry 0%Z (Image.data self) i j k
  = nth (N.to_nat ((i * 256 + j) * c + k)) (elems img) 0%Z.
Proof.
  intros Hinit Himg Hwf Hs Hc Hi Hj Hk.
  pose proof (Image_init_data _ _ _ _ _ Hinit Himg) as Hdata.
  unfold take_axis2 in Hdata. rewrite Hs in Hdata. apply Ok_inj in Hdata.
  unfold Spec.entry. rewrite <- Hdata. cbn [elems].
  rewrite N.min_r by exact Hc. cbn [numel fold_right]. rewrite !N.mul_1_r.
  apply nth_concat_take_chunks_N.
  - exact Hc.
  - rewrite Hwf. unfold size. rewrite Hs. cbn [numel fold_right]. lia.
  - lia.
  - exact Hk.
Qed.

(** ** [Image._loss] as a distance *)

(** The loss by entries, for any object the constructor can have built. *)
Lemma Image_loss_by_entries (self : Image.t) (x : ndarray Qc) :
  Image_inv self -> wf x ->
  fst (Image._loss x self) = Spec.recovery_evaluate (Image.data self) x.
Proof.
  intros Hinv Hx.
  rewrite (Image_loss_value _ _ Hinv Hx). unfold Spec.recovery_evaluate.
  destruct (size x =? 256 * 256 * 3) eqn:E; [|reflexivity].
  apply N.eqb_eq in E. f_equal.
  destruct Hinv as [_ _ _ Hs Hd].
  assert (Hlx : N.of_nat (length (elems x)) = 256 * (256 * 3))
    by (rewrite Hx; exact E).
  assert (Hld : N.of_nat (length (elems (Image.data self))) = 256 * (256 * 3))
    by (rewrite Hd; unfold size; rewrite Hs; reflexivity).
  assert (Hl : length (elems x) = length (elems (Image.data self)))
    by (apply Nat2N.inj; congruence).
  rewrite fold_left_sum_below, length_map, length_zip_with, <- Hl, Nat.min_id, Hlx.
  rewrite sum_below_mul. apply sum_below_ext. intros i Hi.
  rewrite sum_below_mul. apply sum_below_ext. intros j Hj.
  apply sum_below_ext. intros k Hk.
  rewrite nth_abs_diff; [|exact Hl|lia].
  unfold Spec.entry.
  replace (i * (256 * 3) + (j * 3 + k)) with ((i * 256 + j) * 3 + k) by lia.
  reflexivity.
Qed.

Lemma sum_below_le n f g :
  (forall i, i < n -> (f i <= g i)%Qc) ->
  (Spec.sum_below n f <= Spec.sum_below n g)%Qc.
Proof.
  induction n as [|n IH] using N.peano_ind; intros H.
  - apply Qcle_refl.
  - rewrite !sum_below_succ. apply Qcplus_le_compat.
    + apply IH. intros i Hi. apply H. lia.
    + apply H. lia.
Qed.

Lemma sum_cons (a : Qc) (l : list Qc) :
  fold_left Qcplus (a :: l) 0%Qc = (a + fold_left Qcplus l 0)%Qc.
Proof. cbn [fold_left]. rewrite fold_left_Qcplus_acc. ring. Qed.

Lemma sum_nonneg (l : list Qc) :
  Forall (fun a => (0 <= a)%Qc) l -> (0 <= fold_left Qcplus l 0)%Qc.
Proof.
  induction 1 as [|a l Ha _ IH]; [apply Qcle_refl|].
  rewrite sum_cons. replace 0%Qc with (0 + 0)%Qc by ring.
  apply Qcplus_le_compat; assumption.
Qed.

Lemma sum_nonneg_zero (l : list Qc) :
  Forall (fun a => (0 <= a)%Qc) l ->
  fold_left Qcplus l 0%Qc = 0%Qc -> Forall (fun a => a = 0%Qc) l.
Proof.
  induction 1 as [|a l Ha Hl IH]; intros Hsum; [constructor|].
  rewrite sum_cons in Hsum.
  pose proof (sum_nonneg l Hl) as Hs.
  assert (Ha0 : a = 0%Qc).
  { apply Qcle_antisym; [|exact Ha].
    apply Qcle_trans with (a + fold_left Qcplus l 0)%Qc; [|rewrite Hsum; apply Qcle_refl].
    replace a with (a + 0)%Qc at 1 by ring.
    apply Qcplus_le_compat; [apply Qcle_refl | exact Hs]. }
  constructor; [exact Ha0|]. apply IH. rewrite Ha0, Qcplus_0_l in Hsum.
  exact Hsum.
Qed.

Lemma Forall_abs_nonneg (l : list Qc) : Forall (fun a => (0 <= a)%Qc) (map Qcabs l).
Proof. induction l; cbn [map]; constructor; [apply Qcabs_nonneg | assumption]. Qed.

Lemma abs_diffs_zero (xs : list Qc) (ds : list Z) :
  length xs = length ds ->
  Forall (fun a => a = 0%Qc)
         (map Qcabs (zip_with (fun u v => (u - Qc_of_Z v)%Qc) xs ds))
  <-> xs = map Qc_of_Z ds.
Proof.
  revert ds; induction xs as [|x xs IH]; intros [|d ds] Hl; try discriminate.
  - split; [reflexivity | constructor].
  - injection Hl as Hl. cbn [zip_with map]. split.
    + intros H. inversion H as [|? ? H0 Hrest]; subst.
      apply Qcabs_null in H0. f_equal.
      * replace x with (x - Qc_of_Z d + Qc_of_Z d)%Qc by ring. rewrite H0. ring.
      * apply IH; assumption.
    + intros H. injection H as -> Hxs. constructor.
      * replace (Qc_of_Z d - Qc_of_Z d)%Qc with 0%Qc by ring. apply Qcabs_0.
      * apply IH; assumption.
Qed.

Lemma Image_point_lengths (self : Image.t) (x : ndarray Qc) :
  Image_inv self -> wf x -> size x = 256 * 256 * 3 ->
  length (elems x) = length (elems (Image.data self)).
Proof.
  intros [_ _ _ Hs Hd] Hx E. apply Nat2N.inj. rewrite Hx, Hd, E.
  unfold size. rewrite Hs. reflexivity.
Qed.

(** X3. [Image._loss] looks at the entries of the point in order and not at
    its shape: a flat point and a shaped point with the same entries get the
    same outcome. *)
Theorem Image_loss_flat_or_shaped (w : World) (pn : string) (idx : Z)
    (self : Image.t) (x y : ndarray Qc) :
  colour_asset w ->
  Image.__init__ w pn idx = Ok self ->
  wf x -> wf y -> elems x = elems y ->
  fst (Image._loss x self) = fst (Image._loss y self).
Proof.
  intros Hw Hinit Hx Hy He.
  pose proof (Image_init_inv _ _ _ _ Hw Hinit) as Hinv.
  rewrite !Image_loss_value by assumption.
  assert (Hsz : size x = size y) by (rewrite <- Hx, <- Hy, He; reflexivity).
  rewrite Hsz, He. reflexivity.
Qed.

(** X4. The loss is a distance to the target: a value [Image._loss] returns is
    never negative, and it is 0 exactly for the point whose entries are the
    target's. *)
Theorem Image_loss_nonneg_zero_iff (w : World) (pn : string) (idx : Z)
    (self : Image.t) (x : ndarray Qc) (v : Qc) :
  colour_asset w ->
  Image.__init__ w pn idx = Ok self ->
  wf x ->
  fst (Image._loss x self) = Ok v ->
  (0 <= v)%Qc /\
  (v = 0%Qc <-> elems x = map Qc_of_Z (elems (Image.data self))).
Proof.
  intros Hw Hinit Hx Hv.
  pose proof (Image_init_inv _ _ _ _ Hw Hinit) as Hinv.
  rewrite Image_loss_value in Hv by assumption.
  destruct (size x =? 256 * 256 * 3) eqn:E; [|discriminate].
  apply N.eqb_eq in E. apply Ok_inj in Hv. subst v.
  pose proof (Image_point_lengths _ _ Hinv Hx E) as Hl.
  split; [apply sum_nonneg, Forall_abs_nonneg|].
  rewrite <- (abs_diffs_zero _ _ Hl). split.
  - apply sum_nonneg_zero, Forall_abs_nonneg.
  - intros H. clear -H.
    induction H as [|a l -> _ IH]; [reflexivity|].
    rewrite sum_cons, IH. ring.
Qed.

(** X5. The loss grows with the deviation: if every entry of [x] is at most as
    far from the target as the same entry of [y], the loss of [x] is at
    most the loss of [y]. *)
Theorem Image_loss_monotone (w : World) (pn : string) (idx : Z)
    (self : Image.t) (x y : ndarray Qc) (vx vy : Qc) :
  colour_asset w ->
  Image.__init__ w pn idx = Ok self ->
  wf x -> wf y ->
  (forall i j k, i < 256 -> j < 256 -> k < 3 ->
     (Qcabs (Spec.entry 0%Qc x i j k - Qc_of_Z (Spec.entry 0%Z (Image.data self) i j k))
      <= Qcabs (Spec.entry 0%Qc y i j k - Qc_of_Z (Spec.entry 0%Z (Image.data self) i j k)))%Qc) ->
  fst (Image._loss x self) = Ok vx ->
  fst (Image._loss y self) = Ok vy ->
  (vx <= vy)%Qc.
Proof.
  intros Hw Hinit Hx Hy Hle Hvx Hvy.
  pose proof (Image_init_inv _ _ _ _ Hw Hinit) as Hinv.
  rewrite Image_loss_by_entries in Hvx, Hvy by assumption.
  unfold Spec.recovery_evaluate in Hvx, Hvy.
  destruct (size x =? 256 * 256 * 3); [|discriminate].
  destruct (size y =? 256 * 256 * 3); [|discriminate].
  apply Ok_inj in Hvx, Hvy. subst vx vy.
  apply sum_below_le. intros i Hi.
  apply sum_below_le. intros j Hj.
  apply sum_below_le. intros k Hk.
  apply Hle; assumption.
Qed.

Lemma Qc_of_Z_le (a b : Z) : (a <= b)%Z -> (Qc_of_Z a <= Qc_of_Z b)%Qc.
Proof.
  intros H. unfold Qc_of_Z, Qcle. cbn [this Q2Qc]. rewrite !Qred_correct.
  rewrite <- Zle_Qle. exact H.
Qed.

Lemma abs_diff_in_bounds (u : Qc) (p : Z) :
  (0 <= u)%Qc -> (u <= dec 25599 100)%Qc -> (0 <= p <= 255)%Z ->
  (Qcabs (u - Qc_of_Z p) <= dec 25599 100)%Qc.
Proof.
  intros Hu0 Hu1 [Hp0 Hp1]. apply Qcabs_Qcle_condition. split.
  - apply Qcle_trans with (0 + - Qc_of_Z 255)%Qc; [discriminate|].
    apply Qcplus_le_compat; [exact Hu0|]. apply Qcopp_le_compat, Qc_of_Z_le, Hp1.
  - replace (dec 25599 100) with (dec 25599 100 + - 0)%Qc by ring.
    apply Qcplus_le_compat; [exact Hu1|].
    apply Qcopp_le_compat. change 0%Qc with (Qc_of_Z 0). apply Qc_of_Z_le, Hp0.
Qed.

Lemma sum_le_const (c : Qc) (l : list Qc) :
  Forall (fun a => (a <= c)%Qc) l ->
  (fold_left Qcplus l 0 <= Qc_of_Z (Z.of_nat (length l)) * c)%Qc.
Proof.
  induction 1 as [|a l Ha _ IH].
  - cbn [fold_left length]. change (Qc_of_Z (Z.of_nat 0)) with 0%Qc.
    rewrite Qcmult_0_l. apply Qcle_refl.
  - rewrite sum_cons. cbn [length]. rewrite Nat2Z.inj_succ, Qc_of_Z_succ.
    replace ((Qc_of_Z (Z.of_nat (length l)) + 1) * c)%Qc
      with (c + Qc_of_Z (Z.of_nat (length l)) * c)%Qc by ring.
    apply Qcplus_le_compat; assumption.
Qed.

Lemma Forall_abs_diff_in_bounds (xs : list Qc) (ds : list Z) :
  Forall (fun u => (0 <= u)%Qc /\ (u <= dec 25599 100)%Qc) xs ->
  Forall (fun p => (0 <= p <= 255)%Z) ds ->
  Forall (fun a => (a <= dec 25599 100)%Qc)
         (map Qcabs (zip_with (fun u v => (u - Qc_of_Z v)%Qc) xs ds)).
Proof.
  intros Hx; revert ds; induction Hx as [|x xs [Hx0 Hx1] _ IH]; intros ds Hd.
  - constructor.
  - destruct Hd as [|d ds Hd Hds]; [constructor|].
    cbn [zip_with map]. constructor; [apply abs_diff_in_bounds; assumption | apply IH, Hds].
Qed.

(** X6. On the declared domain the objective is bounded: for a point whose
    entries all lie within the bounds 0 and 255.99 set by the constructor,
    and 8-bit pixels in the target, the loss is at most 196608 * 255.99. *)
Theorem Image_loss_bounded_on_domain (w : World) (pn : string) (idx : Z)
    (self : Image.t) (x : ndarray Qc) (v : Qc) :
  colour_asset w ->
  Image.__init__ w pn idx = Ok self ->
  wf x ->
  Forall (fun p => (0 <= p <= 255)%Z) (elems (Image.data self)) ->
  Forall (fun u => (0 <= u)%Qc /\ (u <= dec 25599 100)%Qc) (elems x) ->
  fst (Image._loss x self) = Ok v ->
  (v <= Qc_of_Z 196608 * dec 25599 100)%Qc.
Proof.
  intros Hw Hinit Hx Hpix Hdom Hv.
  pose proof (Image_init_inv _ _ _ _ Hw Hinit) as Hinv.
  rewrite Image_loss_value in Hv by assumption.
  destruct (size x =? 256 * 256 * 3) eqn:E; [|discriminate].
  apply N.eqb_eq in E. apply Ok_inj in Hv. subst v.
  pose proof (Image_point_lengths _ _ Hinv Hx E) as Hl.
  eapply Qcle_trans; [apply sum_le_const, Forall_abs_diff_in_bounds; eassumption|].
  rewrite length_map, length_zip_with, <- Hl, Nat.min_id, <- nat_N_Z, Hx, E.
  apply Qcle_refl.
Qed.

(** *** Witnesses *)

Lemma Probe_gradient_colour : colour_asset Probe.gradient_world.
Proof.
  intros img H. injection H as <-. split.
  - vm_compute. reflexivity.
  - exists 4. split; [discriminate | reflexivity].
Qed.

Lemma Probe_gradient_init :
  Image.__init__ Probe.gradient_world "recovering" 0 = Ok Probe.gradient_image.
Proof. apply from_ok_eq. vm_compute. reflexivity. Qed.

Lemma Image_data_drops_alpha_witness :
  Spec.entry 0%Z (Image.data Probe.gradient_image) 1 2 2
  = nth (N.to_nat ((1 * 256 + 2) * 4 + 2)) (elems Probe.gradient) 0%Z.
Proof.
  apply (Image_data_drops_alpha Probe.gradient_world "recovering" 0).
  - exact Probe_gradient_init.
  - reflexivity.
  - vm_compute. reflexivity.
  - reflexivity.
  - vm_compute. discriminate.
  - reflexivity.
  - reflexivity.
  - reflexivity.
Defined.

Lemma forallb_Forall {A} (f : A -> bool) (l : list A) :
  forallb f l = true -> Forall (fun a => f a = true) l.
Proof.
  induction l as [|a l IH]; cbn [forallb]; intros H; constructor;
    apply andb_prop in H as [Ha Hl]; auto.
Qed.

Lemma full_elems_numel {A} (s t : list N) (v : A) :
  numel s = numel t -> elems (full s v) = elems (full t v).
Proof. intros H. unfold full. cbn [elems]. rewrite H. reflexivity. Qed.

Lemma Sample_shaped_point_wf : wf (full [256; 256; 3] (dec 8 1)).
Proof. vm_compute. reflexivity. Qed.

Lemma Image_loss_flat_or_shaped_witness :
  fst (Image._loss Sample.point Probe.gradient_image)
  = fst (Image._loss (full [256; 256; 3] (dec 8 1)) Probe.gradient_image).
Proof.
  apply (Image_loss_flat_or_shaped Probe.gradient_world "recovering" 0).
  - exact Probe_gradient_colour.
  - exact Probe_gradient_init.
  - exact Sample_point_wf.
  - exact Sample_shaped_point_wf.
  - apply full_elems_numel. reflexivity.
Defined.

Lemma Probe_gradient_loss_returns :
  fst (Image._loss Sample.point Probe.gradient_image)
  = Ok (Probe.returned (fst (Image._loss Sample.point Probe.gradient_image))).
Proof. apply from_ok_eq. vm_compute. reflexivity. Qed.

Lemma Image_loss_nonneg_zero_iff_witness :
  (0 <= Probe.returned (fst (Image._loss Sample.point Probe.gradient_image)))%Qc /\
  (Probe.returned (fst (Image._loss Sample.point Probe.gradient_image)) = 0%Qc
   <-> elems Sample.point = map Qc_of_Z (elems (Image.data Probe.gradient_image))).
Proof.
  apply (Image_loss_nonneg_zero_iff Probe.gradient_world "recovering" 0).
  - exact Probe_gradient_colour.
  - exact Probe_gradient_init.
  - exact Sample_point_wf.
  - exact Probe_gradient_loss_returns.
Defined.

Lemma Probe_target_point_wf : wf (Probe.target_point Probe.gradient_image).
Proof. vm_compute. reflexivity. Qed.

Lemma Probe_target_loss_returns :
  fst (Image._loss (Probe.target_point Probe.gradient_image) Probe.gradient_image)
  = Ok (Probe.returned
          (fst (Image._loss (Probe.target_point Probe.gradient_image)
                            Probe.gradient_image))).
Proof. apply from_ok_eq. vm_compute. reflexivity. Qed.

Lemma Image_loss_monotone_witness :
  (Probe.returned
     (fst (Image._loss (Probe.target_point Probe.gradient_image) Probe.gradient_image))
   <= Probe.returned (fst (Image._loss Sample.point Probe.gradient_image)))%Qc.
Proof.
  apply (Image_loss_monotone Probe.gradient_world "recovering" 0 Probe.gradient_image
           (Probe.target_point Probe.gradient_image) Sample.point).
  - exact Probe_gradient_colour.
  - exact Probe_gradient_init.
  - exact Probe_target_point_wf.
  - exact Sample_point_wf.
  - intros i j k _ _ _. unfold Spec.entry, Probe.target_point, amap. cbn [elems].
    change 0%Qc with (Qc_of_Z 0) at 1. rewrite map_nth.
    match goal with |- (Qcabs (?a - ?a) <= _)%Qc =>
      replace (a - a)%Qc with 0%Qc by ring end.
    rewrite Qcabs_0. apply Qcabs_nonneg.
  - exact Probe_target_loss_returns.
  - exact Probe_gradient_loss_returns.
Defined.

Lemma Image_loss_bounded_on_domain_witness :
  (Probe.returned (fst (Image._loss Sample.point Probe.gradient_image))
   <= Qc_of_Z 196608 * dec 25599 100)%Qc.
Proof.
  apply (Image_loss_bounded_on_domain Probe.gradient_world "recovering" 0
           Probe.gradient_image Sample.point).
  - exact Probe_gradient_colour.
  - exact Probe_gradient_init.
  - exact Sample_point_wf.
  - eapply Forall_impl;
      [apply (forallb_Forall (fun p => (0 <=? p)%Z && (p <=? 255)%Z)); vm_compute; reflexivity|].
    intros p Hp. apply andb_prop in Hp as [H0 H1]. lia.
  - eapply Forall_impl;
      [apply (forallb_Forall (fun u => Qc_leb 0 u && Qc_leb u (dec 25599 100)));
       vm_compute; reflexivity|].
    intros u Hu. apply andb_prop in Hu as [H0 H1]. split; apply Qc_leb_le; assumption.
  - exact Probe_gradient_loss_returns.
Defined.

(** ** Broadcasting a per-channel vector over a batch of images *)

Lemma chunks_1 {A} (l : list A) : chunks 1 (length l) l = map (fun v => [v]) l.
Proof.
  induction l as [|a l IH]; [reflexivity|].
  cbn [length chunks map firstn skipn]. rewrite take_0, drop_0, IH. reflexivity.
Qed.

Lemma chunks_once {A} n (l : list A) : length l = n -> chunks n 1 l = [l].
Proof. intros <-. cbn [chunks]. rewrite firstn_all. reflexivity. Qed.

Lemma concat_replicate_singleton {A} n (v : A) :
  concat (replicate n [v]) = replicate n v.
Proof. induction n as [|n IH]; [reflexivity|]. cbn. rewrite IH. reflexivity. Qed.

Lemma concat_replicate_replicate {A} n m (v : A) :
  concat (replicate n (replicate m v)) = replicate (n * m) v.
Proof.
  induction n as [|n IH]; [reflexivity|].
  cbn [replicate concat Nat.mul]. rewrite IH, replicate_add. reflexivity.
Qed.

Lemma expand_one_axis {A} (w : N) (v : A) :
  expand [1] [w] [v] = replicate (N.to_nat w) v.
Proof.
  cbn [expand]. destruct (N.eqb_spec 1 w) as [<-|Hw].
  - reflexivity.
  - apply concat_replicate_singleton.
Qed.

Lemma expand_plane {A} (h w : N) (v : A) :
  expand [1; 1] [h; w] [v] = replicate (N.to_nat (h * w)) v.
Proof.
  change (expand [1; 1] [h; w] [v])
    with (if 1 =? h
          then concat (map (expand [1] [w]) (chunks (N.to_nat (numel [1])) (N.to_nat 1) [v]))
          else concat (replicate (N.to_nat h) (expand [1] [w] [v]))).
  rewrite N2Nat.inj_mul.
  destruct (N.eqb_spec 1 h) as [<-|Hh].
  - change (N.to_nat (numel [1])) with 1%nat. change (N.to_nat 1) with 1%nat.
    rewrite chunks_once by reflexivity. cbn [map concat].
    rewrite app_nil_r, expand_one_axis. f_equal. lia.
  - rewrite expand_one_axis. apply concat_replicate_replicate.
Qed.

Lemma expand_channels {A} (c h w : N) (l : list A) :
  length l = N.to_nat c ->
  expand [c; 1; 1] [c; h; w] l
  = concat (map (fun v => replicate (N.to_nat (h * w)) v) l).
Proof.
  intros Hl.
  change (expand [c; 1; 1] [c; h; w] l)
    with (if c =? c
          then concat (map (expand [1; 1] [h; w])
                           (chunks (N.to_nat (numel [1; 1])) (N.to_nat c) l))
          else concat (replicate (N.to_nat c) (expand [1; 1] [h; w] l))).
  rewrite N.eqb_refl. change (N.to_nat (numel [1; 1])) with 1%nat.
  rewrite <- Hl, chunks_1, map_map. f_equal.
  apply map_ext. intros v. apply expand_plane.
Qed.

Lemma expand_batch {A} (b : N) (s t : list N) (l : list A) :
  length l = N.to_nat (numel s) ->
  expand (1 :: s) (b :: t) l = concat (replicate (N.to_nat b) (expand s t l)).
Proof.
  intros Hl. cbn [expand]. destruct (N.eqb_spec 1 b) as [<-|Hb]; [|reflexivity].
  rewrite chunks_once by exact Hl. reflexivity.
Qed.

Lemma nth_concat_replicate {A} (d : A) n (L : list A) q r :
  (q < n)%nat -> (r < length L)%nat ->
  nth (q * length L + r) (concat (replicate n L)) d = nth r L d.
Proof.
  revert q; induction n as [|n IH]; intros q Hq Hr; [lia|].
  cbn [replicate concat]. destruct q as [|q].
  - cbn [Nat.mul Nat.add]. apply app_nth1, Hr.
  - replace (S q * length L + r)%nat with (length L + (q * length L + r))%nat
      by (cbn [Nat.mul]; lia).
    rewrite app_nth2_plus. apply IH; lia.
Qed.

Lemma nth_replicate_lt {A} (d v : A) m r :
  (r < m)%nat -> nth r (replicate m v) d = v.
Proof.
  revert r; induction m as [|m IH]; intros r Hr; [lia|].
  destruct r as [|r]; [reflexivity|]. cbn [replicate nth]. apply IH. lia.
Qed.

Lemma nth_concat_map_replicate {A} (d : A) m (l : list A) q r :
  (q < length l)%nat -> (r < m)%nat ->
  nth (q * m + r) (concat (map (fun v => replicate m v) l)) d = nth q l d.
Proof.
  revert q; induction l as [|a l IH]; intros q Hq Hr; cbn [length] in Hq; [lia|].
  cbn [map concat]. destruct q as [|q].
  - cbn [Nat.mul Nat.add nth]. rewrite app_nth1 by (rewrite length_replicate; exact Hr).
    apply nth_replicate_lt, Hr.
  - replace (S q * m + r)%nat with (length (replicate m a) + (q * m + r))%nat
      by (rewrite length_replicate; cbn [Nat.mul]; lia).
    rewrite app_nth2_plus. cbn [nth]. apply IH; lia.
Qed.

Lemma length_concat_map_replicate {A} m (l : list A) :
  length (concat (map (fun v => replicate m v) l)) = (length l * m)%nat.
Proof.
  induction l as [|a l IH]; [reflexivity|].
  cbn [map concat length]. rewrite length_app, length_replicate, IH. cbn [Nat.mul]. lia.
Qed.

Lemma nth_zip_with {A B C} (f : A -> B -> C) (da : A) (db : B) (dc : C) l k i :
  (i < length l)%nat -> (i < length k)%nat ->
  nth i (zip_with f l k) dc = f (nth i l da) (nth i k db).
Proof.
  revert k i; induction l as [|a l IH]; intros [|b k] i Hl Hk; cbn [length] in *; try lia.
  destruct i as [|i]; [reflexivity|]. cbn [zip_with nth]. apply IH; lia.
Qed.

Lemma broadcast_rev_ones (s : list N) :
  broadcast_rev s (replicate (length s) 1) = Some s.
Proof.
  induction s as [|a s IH]; [reflexivity|].
  cbn [length replicate broadcast_rev]. rewrite IH.
  destruct (a =? 1) eqn:E; [reflexivity|]. reflexivity.
Qed.

(** A vector of per-channel statistics, indexed [None, :, None, None],
    against a batch of images: every pixel of channel [ch] of every image
    meets entry [ch] of the vector. *)
Lemma broadcast2_per_channel {C} err (f : Qc -> Qc -> C) (x : ndarray Qc)
    (l : list Qc) (b c h w : N) :
  wf x -> shape x = [b; c; h; w] -> length l = N.to_nat c ->
  broadcast2 err f x (mk_ndarray [1; c; 1; 1] l)
  = Ok (mk_ndarray [b; c; h; w]
          (zip_with f (elems x)
             (concat (replicate (N.to_nat b)
                (concat (map (fun v => replicate (N.to_nat (h * w)) v) l)))))).
Proof.
  intros Hwf Hs Hl. unfold broadcast2. rewrite Hs. cbn [shape].
  assert (Hb : broadcast_shapes [b; c; h; w] [1; c; 1; 1] = Some [b; c; h; w]).
  { unfold broadcast_shapes. cbn [rev app broadcast_rev]. rewrite (N.eqb_refl c).
    destruct (b =? 1), (h =? 1), (w =? 1); reflexivity. }
  rewrite Hb. f_equal. f_equal. f_equal.
  - rewrite <- Hs. apply broadcast_to_same, Hwf.
  - unfold broadcast_to. cbn [shape elems length pad_shape Nat.sub replicate app].
    rewrite expand_batch, expand_channels; [reflexivity|exact Hl|].
    rewrite Hl. cbn [numel fold_right]. f_equal. lia.
Qed.

Lemma length_concat_replicate {A} n (L : list A) :
  length (concat (replicate n L)) = (n * length L)%nat.
Proof.
  induction n as [|n IH]; [reflexivity|].
  cbn [replicate concat Nat.mul]. rewrite length_app, IH. reflexivity.
Qed.

Lemma index_in_range (b c hw n ch r : N) :
  n < b -> ch < c -> r < hw -> (n * c + ch) * hw + r < b * (c * hw).
Proof.
  intros Hn Hch Hr.
  assert (H1 : n * c + ch + 1 <= b * c).
  { apply N.le_trans with ((n + 1) * c); [lia|]. apply N.mul_le_mono_r. lia. }
  apply N.lt_le_trans with ((n * c + ch + 1) * hw); [lia|].
  rewrite N.mul_assoc. apply N.mul_le_mono_r, H1.
Qed.

Lemma nth_per_channel (d : Qc) (l : list Qc) (b c h w n ch r : N) :
  length l = N.to_nat c -> n < b -> ch < c -> r < h * w ->
  nth (N.to_nat ((n * c + ch) * (h * w) + r))
      (concat (replicate (N.to_nat b)
         (concat (map (fun v => replicate (N.to_nat (h * w)) v) l)))) d
  = nth (N.to_nat ch) l d.
Proof.
  intros Hl Hn Hch Hr.
  set (L := concat (map (fun v => replicate (N.to_nat (h * w)) v) l)).
  assert (HL : length L = (N.to_nat c * N.to_nat (h * w))%nat).
  { unfold L. rewrite length_concat_map_replicate, Hl. reflexivity. }
  replace (N.to_nat ((n * c + ch) * (h * w) + r))
    with (N.to_nat n * length L + (N.to_nat ch * N.to_nat (h * w) + N.to_nat r))%nat
    by (rewrite HL; lia).
  rewrite nth_concat_replicate; [|lia|rewrite HL].
  2:{ rewrite <- N2Nat.inj_mul, <- N2Nat.inj_add.
      pose proof (index_in_range 1 c (h * w) 0 ch r). lia. }
  unfold L. apply nth_concat_map_replicate; lia.
Qed.

(** ** [Normalize.forward] *)

Lemma Normalize_forward_entries (mean std : list Qc) (x : ndarray Qc)
    (b c h w : N) :
  length mean = N.to_nat c -> length std = N.to_nat c ->
  wf x -> shape x = [b; c; h; w] ->
  exists y : ndarray Qc,
    Normalize.forward (Normalize.__init__ mean std) x = Ok y /\
    shape y = [b; c; h; w] /\ wf y /\
    forall n ch r, n < b -> ch < c -> r < h * w ->
      nth (N.to_nat ((n * c + ch) * (h * w) + r)) (elems y) 0%Qc
      = ((nth (N.to_nat ((n * c + ch) * (h * w) + r)) (elems x) 0
          - nth (N.to_nat ch) mean 0) / nth (N.to_nat ch) std 0)%Qc.
Proof.
  intros Hm Hsd Hwf Hs.
  pose proof (wf_length _ Hwf) as Hlx. rewrite Hs in Hlx. cbn [numel fold_right] in Hlx.
  set (spread := fun l : list Qc =>
         concat (replicate (N.to_nat b)
           (concat (map (fun v => replicate (N.to_nat (h * w)) v) l)))).
  assert (Hspread : forall l, length l = N.to_nat c ->
            length (spread l) = length (elems x)).
  { intros l Hl. unfold spread.
    rewrite length_concat_replicate, length_concat_map_replicate, Hl, Hlx. lia. }
  unfold Normalize.forward, Normalize.__init__.
  cbn [Normalize.mean Normalize.std index_None_all_None_None shape elems].
  rewrite !bind_Ok, Hm, Hsd, !N2Nat.id.
  unfold torch_sub. rewrite (broadcast2_per_channel _ _ x mean b c h w) by assumption.
  rewrite bind_Ok. unfold torch_div. fold (spread mean).
  rewrite (broadcast2_per_channel _ _ _ std b c h w); [|
    unfold wf, size; cbn [shape elems numel fold_right];
    rewrite length_zip_with, (Hspread mean Hm), Nat.min_id, Hlx, N2Nat.id; reflexivity
    | reflexivity | exact Hsd].
  cbn [elems].
  fold (spread mean). fold (spread std).
  eexists. split; [reflexivity|]. cbn [shape elems]. split; [reflexivity|]. split.
  - unfold wf, size. cbn [shape elems numel fold_right].
    rewrite !length_zip_with, (Hspread mean Hm), (Hspread std Hsd), !Nat.min_id, Hlx, N2Nat.id.
    reflexivity.
  - intros n ch r Hn Hch Hr.
    assert (Hi : (N.to_nat ((n * c + ch) * (h * w) + r) < length (elems x))%nat)
      by (rewrite Hlx; pose proof (index_in_range b c (h * w) n ch r); lia).
    rewrite (nth_zip_with _ 0%Qc 0%Qc);
      [|rewrite length_zip_with, (Hspread mean Hm); lia|rewrite (Hspread std Hsd); exact Hi].
    rewrite (nth_zip_with _ 0%Qc 0%Qc); [|exact Hi|rewrite (Hspread mean Hm); exact Hi].
    unfold spread. rewrite !nth_per_channel by assumption. reflexivity.
Qed.



(** X8. A batch whose number of channels is neither that of the statistics nor
    1 is refused: [Normalize.forward] raises RuntimeError on it. *)
Theorem Normalize_forward_channel_mismatch (mean std : list Qc) (x : ndarray Qc)
    (b c h w k : N) :
  length mean = N.to_nat k ->
  shape x = [b; c; h; w] ->
  c <> k -> c <> 1 -> k <> 1 ->
  Normalize.forward (Normalize.__init__ mean std) x = Raise RuntimeError.
Proof.
  intros Hm Hs Hck Hc1 Hk1.
  unfold Normalize.forward, Normalize.__init__.
  cbn [Normalize.mean Normalize.std index_None_all_None_None shape elems].
  rewrite !bind_Ok, Hm, N2Nat.id.
  unfold torch_sub, broadcast2. rewrite Hs. cbn [shape].
  unfold broadcast_shapes. cbn [rev app broadcast_rev].
  apply N.eqb_neq in Hck, Hc1, Hk1. rewrite Hck, Hc1, Hk1.
  destruct (b =? 1); reflexivity.
Qed.

Lemma Normalize_forward_channel_mismatch_witness :
  Normalize.forward (Normalize.__init__ Probe.imagenet_mean Probe.imagenet_std)
                    Probe.rgba_batch = Raise RuntimeError.
Proof.
  apply (Normalize_forward_channel_mismatch Probe.imagenet_mean Probe.imagenet_std
           Probe.rgba_batch 2 4 1 2 3).
  - reflexivity.
  - reflexivity.
  - discriminate.
  - discriminate.
  - discriminate.
Defined.

(** ** [TestClassifier.forward] *)

Lemma length_concat_map_const {A B} (g : A -> list B) m (l : list A) :
  (forall a, length (g a) = m) ->
  length (concat (map g l)) = (length l * m)%nat.
Proof.
  intros Hg. induction l as [|a l IH]; [reflexivity|].
  cbn [map concat length]. rewrite length_app, Hg, IH. cbn [Nat.mul]. reflexivity.
Qed.

(** X9. On a well-formed non-empty batch, [TestClassifier.forward] flattens
    each item and applies the linear layer: when an item has as many
    entries as the layer has inputs, the result is well formed with one row
    of [out_features] logits per item; otherwise the call raises
    RuntimeError. *)
Theorem TestClassifier_forward_outcome (m : Linear) (x : ndarray Qc)
    (b : N) (rest : list N) :
  length (weight m) = N.to_nat (out_features m) ->
  length (bias m) = N.to_nat (out_features m) ->
  wf x -> shape x = b :: rest -> 0 < b ->
  match TestClassifier.forward (TestClassifier.mk m) x with
  | Ok y => numel rest = in_features m /\ shape y = [b; out_features m] /\ wf y
  | Raise e => numel rest <> in_features m /\ e = RuntimeError
  end.
Proof.
  intros Hw Hb Hwf Hs Hpos. unfold TestClassifier.forward. rewrite Hs.
  destruct (N.eqb_spec b 0) as [->|_]; [lia|].
  unfold torch_view, reshape, size. rewrite Hs.
  replace (numel [b; numel rest] =? numel (b :: rest)) with true
    by (symmetry; apply N.eqb_eq; rewrite !numel_cons;
        change (numel []) with 1; rewrite N.mul_1_r; reflexivity).
  rewrite bind_Ok. unfold Linear_forward. cbn [shape elems rev app TestClassifier.model].
  destruct (N.eqb_spec (numel rest) (in_features m)) as [Hn|Hn]; [|split; [exact Hn|reflexivity]].
  split; [exact Hn|]. split; [reflexivity|].
  unfold wf, size. cbn [shape elems numel fold_right].
  rewrite (length_concat_map_const _ (N.to_nat (out_features m))).
  - rewrite chunks_length. lia.
  - intros row. rewrite length_zip_with, length_map, Hw, Hb. apply Nat.min_id.
Qed.

Lemma TestClassifier_forward_outcome_witness :
  match TestClassifier.forward (TestClassifier.mk Probe.linear) Probe.items with
  | Ok y => numel [2; 2] = in_features Probe.linear /\
            shape y = [2; out_features Probe.linear] /\ wf y
  | Raise e => numel [2; 2] <> in_features Probe.linear /\ e = RuntimeError
  end.
Proof.
  apply (TestClassifier_forward_outcome Probe.linear Probe.items 2 [2; 2]).
  - reflexivity.
  - reflexivity.
  - vm_compute. reflexivity.
  - reflexivity.
  - reflexivity.
Defined.

Example test_classifier_logits :
  match TestClassifier.forward (TestClassifier.mk Probe.linear) Probe.items with
  | Ok y => Ok (shape y, map this (elems y))
  | Raise e => Raise e
  end
  = Ok ([2; 2], [3 # 5; -1 # 5; 1 # 1; -1 # 5]%Q).
Proof. vm_compute. reflexivity. Qed.

(** ** The constructor of [ImageAdversarial] *)

Lemma Qc_ltb_lt x y : Qc_ltb x y = true <-> (x < y)%Qc.
Proof.
  unfold Qc_ltb. rewrite negb_true_iff. split.
  - intros H. apply Qcnot_le_lt. intros Hle. apply Qc_leb_le in Hle.
    unfold Qc_leb in Hle. congruence.
  - intros H. destruct (Qle_bool y x) eqn:E; [|reflexivity].
    exfalso. apply (Qclt_not_le _ _ H). apply Qc_leb_le. exact E.
Qed.

Lemma Qc_ltb_ball (e : Qc) : (0 < e)%Qc -> Qc_ltb e (- e) = false.
Proof.
  intros He. destruct (Qc_ltb e (- e)) eqn:E; [|reflexivity].
  exfalso. apply Qc_ltb_lt in E.
  apply (Qclt_not_le _ _ (Qclt_trans _ _ _ He E)).
  replace 0%Qc with (- 0)%Qc by ring.
  apply Qcopp_le_compat, Qclt_le_weak, He.
Qed.

Lemma Qc_div_10_pos_leb (e : Qc) : (0 < e)%Qc -> Qc_leb (e / dec 10 1) 0 = false.
Proof.
  intros He. destruct (Qc_leb (e / dec 10 1) 0) eqn:E; [|reflexivity].
  exfalso. apply Qc_leb_le in E. apply (Qclt_not_le _ _ He).
  replace e with (e / dec 10 1 * dec 10 1)%Qc by (field; discriminate).
  replace 0%Qc with (0 * dec 10 1)%Qc by ring.
  apply Qcmult_le_compat_r; [exact E | discriminate].
Qed.

(** X10. The constructor of [ImageAdversarial] raises IndexError on a base image
    of fewer than two dimensions whatever epsilon is, raises the
    parametrization's ConfigError when epsilon is not positive, and
    otherwise succeeds; the domain it then declares starts from the zero
    perturbation of the image's shape, is bounded by -epsilon and epsilon
    and mutates with sigma = epsilon / 10. *)
Theorem ImageAdversarial_init_outcome (w : World) (cls : nn_Module)
    (img : ndarray Qc) (lbl : Z) (tg : bool) (eps : Qc) :
  match ImageAdversarial.__init__ w cls img lbl tg eps with
  | Ok self =>
      (2 <= length (shape img))%nat /\ (0 < eps)%Qc /\
      let domain := base.parametrization (ImageAdversarial.super self) in
      p.init domain = np_zeros (shape img) /\
      p.sigma domain = Some (eps / dec 10 1)%Qc /\
      p.bounds domain = Some (p.mk_Bounds (- eps)%Qc eps "clipping" true)
  | Raise e =>
      if (length (shape img) <? 2)%nat then e = IndexError
      else e = ConfigError /\ (eps <= 0)%Qc
  end.
Proof.
  unfold ImageAdversarial.__init__. cbv zeta.
  destruct (shape img) as [|d0 [|d1 rest]] eqn:Hs; try reflexivity.
  rewrite bind_Ok. unfold p.set_mutation.
  change (length (d0 :: d1 :: rest) <? 2)%nat with false.
  destruct (Qc_leb (eps / dec 10 1) 0) eqn:E.
  - cbn [mbind result_bind]. split; [reflexivity|].
    apply Qcnot_lt_le. intros Hpos. apply Qc_div_10_pos_leb in Hpos. congruence.
  - apply Qc_div_10_pos in E. rewrite bind_Ok. unfold p.set_bounds.
    rewrite (Qc_ltb_ball _ E), bind_Ok.
    cbn. repeat split; [lia | exact E].
Qed.

(** ** What [ImageAdversarial._loss] depends on *)

(** The loss reads six attributes of the object and nothing else. *)
Lemma ImageAdversarial_loss_ext (a b : ImageAdversarial.t) (x : ndarray Qc) :
  ImageAdversarial.image a = ImageAdversarial.image b ->
  ImageAdversarial.imsize a = ImageAdversarial.imsize b ->
  ImageAdversarial.classifier a = ImageAdversarial.classifier b ->
  ImageAdversarial.criterion a = ImageAdversarial.criterion b ->
  ImageAdversarial.label a = ImageAdversarial.label b ->
  ImageAdversarial.targeted a = ImageAdversarial.targeted b ->
  fst (ImageAdversarial._loss x a) = fst (ImageAdversarial._loss x b).
Proof.
  intros H1 H2 H3 H4 H5 H6. unfold ImageAdversarial._loss. cbn [fst].
  rewrite H1, H2, H3, H4, H5, H6. reflexivity.
Qed.

Lemma with_tag_inv w tags k tagged :
  ImageAdversarial._with_tag w tags k = Ok tagged ->
  exists func kw,
    ImageAdversarial.construct w k = Ok func /\
    base._initialization_kwargs (ImageAdversarial.super func) = Some kw /\
    tagged
    = ImageAdversarial.mk
        (ImageAdversarial.targeted func) (ImageAdversarial.epsilon func)
        (ImageAdversarial.image func) (ImageAdversarial.label func)
        (ImageAdversarial.classifier func) (ImageAdversarial.criterion func)
        (ImageAdversarial.imsize func)
        (base.mk (base.parametrization (ImageAdversarial.super func)) "_with_tag"
                 (Some (<["tags" := PyTags tags]> kw))
                 (base.update (PyStr <$> tags)
                    (base._descriptors (ImageAdversarial.super func)))).
Proof.
  intros H. unfold ImageAdversarial._with_tag in H. bind_inv H. cbv zeta in H.
  cbn [base.add_descriptors base._initialization_kwargs base.parametrization
       base._descriptors base._initialization_func] in H.
  destruct (base._initialization_kwargs (ImageAdversarial.super a)) as [kw|] eqn:Hkw;
    [|discriminate].
  apply Ok_inj in H. exists a, kw. auto.
Qed.

(** X11. Tagging changes what an instance is called, not what it computes:
    [_with_tag] fails exactly when the constructor does, and the instance
    it returns evaluates every point like the untagged one; its descriptors
    are those of the untagged instance with every tag written over them,
    and the tags are kept among the keyword arguments registered for
    re-creating it, with [_with_tag] as the function to call. *)
Theorem with_tag_keeps_the_objective (w : World) (tags : gmap string string)
    (k : ImageAdversarial.kwargs) :
  match ImageAdversarial._with_tag w tags k with
  | Ok tagged =>
      exists func,
        ImageAdversarial.construct w k = Ok func /\
        (forall x, fst (ImageAdversarial._loss x tagged)
                   = fst (ImageAdversarial._loss x func)) /\
        (forall key,
           base._descriptors (ImageAdversarial.super tagged) !! key
           = match tags !! key with
             | Some v => Some (PyStr v)
             | None => base._descriptors (ImageAdversarial.super func) !! key
             end) /\
        (exists kw,
           base._initialization_kwargs (ImageAdversarial.super tagged) = Some kw /\
           kw !! "tags" = Some (PyTags tags)) /\
        base._initialization_func (ImageAdversarial.super tagged) = "_with_tag"
  | Raise e => ImageAdversarial.construct w k = Raise e
  end.
Proof.
  destruct (ImageAdversarial._with_tag w tags k) as [tagged|e] eqn:H.
  - destruct (with_tag_inv _ _ _ _ H) as (func & kw & Hc & Hkw & ->).
    exists func. split; [exact Hc|]. split; [|split; [|split]].
    + intros x. apply ImageAdversarial_loss_ext; reflexivity.
    + intros key. cbn [ImageAdversarial.super base._descriptors]. unfold base.update.
      rewrite lookup_union, lookup_fmap.
      destruct (tags !! key) as [v|]; cbn [fmap option_fmap option_map];
        [destruct (base._descriptors _ !! key); reflexivity|].
      destruct (base._descriptors _ !! key); reflexivity.
    + eexists. split; [reflexivity|]. apply lookup_insert_eq.
    + reflexivity.
  - unfold ImageAdversarial._with_tag in H.
    destruct (ImageAdversarial.construct w k) as [func|e'] eqn:Hc.
    + exfalso. rewrite bind_Ok in H. cbv zeta in H.
      cbn [base.add_descriptors base._initialization_kwargs] in H.
      unfold ImageAdversarial.construct, ImageAdversarial.__init__ in Hc. cbv zeta in Hc.
      bind_inv Hc. bind_inv Hc. bind_inv Hc. apply Ok_inj in Hc. subst func.
      cbn in H. discriminate.
    + rewrite bind_Raise in H. exact H.
Qed.

Lemma imsize_of_init w cls img lbl tg eps self d0 d1 rest :
  ImageAdversarial.__init__ w cls img lbl tg eps = Ok self ->
  shape img = d0 :: d1 :: rest ->
  ImageAdversarial.imsize self = d1.
Proof.
  intros H Hs.
  destruct (ImageAdversarial_init_inv _ _ _ _ _ _ _ H)
    as (_ & _ & _ & _ & _ & _ & (e0 & erest & He) & _).
  rewrite Hs in He. congruence.
Qed.

(** X12. The targeted and the untargeted objective on the same classifier, image
    and label are opposite: on every point, where one returns [v] the other
    returns [- v], and where one raises the other raises the same. *)
Theorem ImageAdversarial_loss_sign_flip (w : World) (cls : nn_Module)
    (img : ndarray Qc) (lbl : Z) (eps : Qc)
    (attack untargeted : ImageAdversarial.t) (x : ndarray Qc) :
  ImageAdversarial.__init__ w cls img lbl true eps = Ok attack ->
  ImageAdversarial.__init__ w cls img lbl false eps = Ok untargeted ->
  match fst (ImageAdversarial._loss x attack) with
  | Ok v => fst (ImageAdversarial._loss x untargeted) = Ok (- v)%Qc
  | Raise e => fst (ImageAdversarial._loss x untargeted) = Raise e
  end.
Proof.
  intros Ht Hu.
  destruct (ImageAdversarial_init_inv _ _ _ _ _ _ _ Ht)
    as (Htg & _ & Himg & Hlbl & Hcls & Hcrit & (d0 & rest & Hs) & _).
  destruct (ImageAdversarial_init_inv _ _ _ _ _ _ _ Hu)
    as (Htg' & _ & Himg' & Hlbl' & Hcls' & Hcrit' & _).
  pose proof (imsize_of_init _ _ _ _ _ _ _ _ _ _ Hu Hs) as Hims.
  unfold ImageAdversarial._loss. cbn [fst].
  rewrite Htg, Htg', Himg, Himg', Hlbl, Hlbl', Hcls, Hcls', Hcrit, Hcrit', Hims.
  destruct (torch_add img (torch_Tensor x)) as [s|e]; [|reflexivity]. rewrite !bind_Ok.
  destruct (torch_view _ _) as [adv|e]; [|reflexivity]. rewrite !bind_Ok.
  destruct (nn_call cls adv) as [out|e]; [|reflexivity]. rewrite !bind_Ok.
  destruct (cross_entropy w out _) as [v|e]; [|reflexivity]. rewrite !bind_Ok.
  f_equal. ring.
Qed.

Lemma clamp1_unit (v : Qc) :
  (0 <= clamp1 0 1 v)%Qc /\ (clamp1 0 1 v <= 1)%Qc.
Proof.
  unfold clamp1, Qc_ltb.
  pose proof (Qc_leb_le 0 v) as H0. pose proof (Qc_leb_le v 1) as H1.
  unfold Qc_leb in H0, H1.
  destruct (Qle_bool 0%Qc v); cbn [negb].
  - destruct (Qle_bool v 1%Qc); cbn [negb].
    + split; [apply H0 | apply H1]; reflexivity.
    + split; [discriminate | apply Qcle_refl].
  - split; [apply Qcle_refl | discriminate].
Qed.

(** X13. The classifier is only ever asked about one image with three channels
    of side [imsize] and entries between 0 and 1: two classifiers that
    agree on all such batches give the same outcome on every point,
    whatever they do elsewhere. *)
Theorem ImageAdversarial_loss_asks_about_unit_images (w : World)
    (f g : ndarray Qc -> result (ndarray Qc))
    (img : ndarray Qc) (lbl : Z) (tg : bool) (eps : Qc)
    (self_f self_g : ImageAdversarial.t) (x : ndarray Qc) :
  ImageAdversarial.__init__ w (OfCallable f) img lbl tg eps = Ok self_f ->
  ImageAdversarial.__init__ w (OfCallable g) img lbl tg eps = Ok self_g ->
  (forall t : ndarray Qc,
     shape t = [1; 3; ImageAdversarial.imsize self_f; ImageAdversarial.imsize self_f] ->
     Forall (fun v => (0 <= v)%Qc /\ (v <= 1)%Qc) (elems t) ->
     f t = g t) ->
  fst (ImageAdversarial._loss x self_f) = fst (ImageAdversarial._loss x self_g).
Proof.
  intros Hf Hg Hagree.
  destruct (ImageAdversarial_init_inv _ _ _ _ _ _ _ Hf)
    as (Htg & _ & Himg & Hlbl & Hcls & Hcrit & (d0 & rest & Hs) & _).
  destruct (ImageAdversarial_init_inv _ _ _ _ _ _ _ Hg)
    as (Htg' & _ & Himg' & Hlbl' & Hcls' & Hcrit' & _).
  pose proof (imsize_of_init _ _ _ _ _ _ _ _ _ _ Hg Hs) as Hims.
  unfold ImageAdversarial._loss. cbn [fst].
  rewrite Htg, Htg', Himg, Himg', Hlbl, Hlbl', Hcls, Hcls', Hcrit, Hcrit', Hims.
  destruct (torch_add img (torch_Tensor x)) as [s|e]; [|reflexivity]. rewrite !bind_Ok.
  unfold torch_view, reshape.
  destruct (numel _ =? size _); [|reflexivity]. rewrite !bind_Ok.
  cbn [nn_call]. rewrite Hagree; [reflexivity|reflexivity|].
  cbn [elems torch_clamp amap].
  induction (elems s) as [|v l IH]; cbn [map]; constructor; [apply clamp1_unit | exact IH].
Qed.

(** X14. Unlike [Image._loss], [ImageAdversarial._loss] does not take a flattened
    point: against a base image of shape (3, s, s) with [s] at least 1, a
    point of shape (3*s*s,) makes it raise RuntimeError. *)
Theorem ImageAdversarial_loss_refuses_flat_points (w : World) (cls : nn_Module)
    (img : ndarray Qc) (lbl : Z) (tg : bool) (eps : Qc)
    (self : ImageAdversarial.t) (x : ndarray Qc) (s : N) :
  ImageAdversarial.__init__ w cls img lbl tg eps = Ok self ->
  shape img = [3; s; s] -> 1 <= s ->
  shape x = [3 * s * s] ->
  fst (ImageAdversarial._loss x self) = Raise RuntimeError.
Proof.
  intros Hinit Hs Hpos Hx.
  destruct (ImageAdversarial_init_inv _ _ _ _ _ _ _ Hinit)
    as (_ & _ & Himg & _).
  pose proof (imsize_of_init _ _ _ _ _ _ _ _ _ _ Hinit Hs) as Hims.
  unfold ImageAdversarial._loss, torch_Tensor. cbn [fst].
  rewrite Himg, Hims. unfold torch_add, broadcast2. rewrite Hs, Hx.
  unfold broadcast_shapes. cbn [rev app broadcast_rev].
  replace (s =? 3 * s * s) with false by (symmetry; apply N.eqb_neq; nia).
  replace (3 * s * s =? 1) with false by (symmetry; apply N.eqb_neq; nia).
  destruct (N.eqb_spec s 1) as [->|Hs1]; [|reflexivity].
  cbn [rev app]. rewrite bind_Ok. reflexivity.
Qed.

Lemma Probe_adversarial_with_init cls tg :
  is_ok (ImageAdversarial.__init__ Sample.world cls Sample.square_image 5 tg (dec 5 100))
  = true ->
  ImageAdversarial.__init__ Sample.world cls Sample.square_image 5 tg (dec 5 100)
  = Ok (Probe.adversarial_with cls tg).
Proof. apply from_ok_eq. Qed.

Lemma ImageAdversarial_loss_sign_flip_witness :
  match fst (ImageAdversarial._loss Sample.perturbation
               (Probe.adversarial_with Sample.classifier true)) with
  | Ok v => fst (ImageAdversarial._loss Sample.perturbation
                   (Probe.adversarial_with Sample.classifier false)) = Ok (- v)%Qc
  | Raise e => fst (ImageAdversarial._loss Sample.perturbation
                      (Probe.adversarial_with Sample.classifier false)) = Raise e
  end.
Proof.
  apply (ImageAdversarial_loss_sign_flip Sample.world Sample.classifier
           Sample.square_image 5 (dec 5 100)).
  - apply Probe_adversarial_with_init. vm_compute. reflexivity.
  - apply Probe_adversarial_with_init. vm_compute. reflexivity.
Defined.

Lemma ImageAdversarial_loss_asks_about_unit_images_witness :
  fst (ImageAdversarial._loss Sample.perturbation
         (Probe.adversarial_with (OfCallable Probe.flatten) false))
  = fst (ImageAdversarial._loss Sample.perturbation
           (Probe.adversarial_with (OfCallable Probe.picky) false)).
Proof.
  apply (ImageAdversarial_loss_asks_about_unit_images Sample.world
           Probe.flatten Probe.picky Sample.square_image 5 false (dec 5 100)).
  - apply Probe_adversarial_with_init. vm_compute. reflexivity.
  - apply Probe_adversarial_with_init. vm_compute. reflexivity.
  - intros t _ Hunit. unfold Probe.picky.
    replace (Probe.unit_entries t) with true; [reflexivity|].
    symmetry. unfold Probe.unit_entries.
    induction Hunit as [|v l [H0 H1] _ IH]; [reflexivity|].
    cbn [forallb]. rewrite IH.
    apply Qc_leb_le in H0, H1. rewrite H0, H1. reflexivity.
Defined.

Lemma ImageAdversarial_loss_refuses_flat_points_witness :
  fst (ImageAdversarial._loss (np_zeros [12])
         (Probe.adversarial_with Sample.classifier false))
  = Raise RuntimeError.
Proof.
  apply (ImageAdversarial_loss_refuses_flat_points Sample.world Sample.classifier
           Sample.square_image 5 false (dec 5 100) _ _ 2).
  - apply Probe_adversarial_with_init. vm_compute. reflexivity.
  - reflexivity.
  - discriminate.
  - reflexivity.
Defined.

(** ** The generator, whatever the benchmark *)

(** X15. Iterating a generator of [make_benchmark_functions] always comes to an
    end within two steps: it has then yielded at most one instance and is
    finished, for every name, namespace and outside world. *)
Theorem generator_ends_within_two_steps (globals : gmap string pyval) (w : World)
    (name : string) (fuel : nat) :
  exists l e,
    ImageAdversarial.iterate (S (S fuel)) globals w (ImageAdversarial.Created name)
    = Some (l, e) /\
    (length l <= 1)%nat /\
    snd (ImageAdversarial.next globals w
           (snd (ImageAdversarial.next globals w (ImageAdversarial.Created name))))
    = ImageAdversarial.Finished.
Proof.
  cbn [ImageAdversarial.iterate].
  destruct (ImageAdversarial.next globals w (ImageAdversarial.Created name))
    as [[func|err] g] eqn:Hn.
  - assert (Hg : exists pt, g = ImageAdversarial.Suspended pt).
    { unfold ImageAdversarial.next in Hn.
      destruct (ImageAdversarial.body globals w name) as [[f pt]|e']; [|discriminate].
      injection Hn as _ <-. eauto. }
    destruct Hg as [pt ->]. cbn [ImageAdversarial.next snd].
    exists [func], None. repeat split. cbn [length]. lia.
  - assert (Hg : g = ImageAdversarial.Finished).
    { unfold ImageAdversarial.next in Hn.
      destruct (ImageAdversarial.body globals w name) as [[f pt]|e']; [discriminate|].
      injection Hn as _ <-. reflexivity. }
    subst g. cbn [ImageAdversarial.next snd].
    destruct err; eexists [], _; repeat split; cbn [length]; lia.
Qed.

(** ** The imagenet branch once [data_folder] is bound *)







Lemma Probe_net_init :
  Resnet50.__init__ (resnet50 Sample.imagenet_world) = Ok Probe.net.
Proof. apply from_ok_eq. reflexivity. Qed.



Example the_first_hit_is_lost :
  match Probe.after_first_item with
  | Some f => elems (ImageAdversarial.label f)
  | None => []
  end = [0%Z] /\
  elems (ImageAdversarial.label Probe.second_instance) = [1%Z].
Proof. split; vm_compute; reflexivity. Qed.

(** ** The test benchmark, end to end *)

Lemma TestClassifier_forward_Ok (m : Linear) (x : ndarray Qc) (b : N) (rest : list N) :
  length (weight m) = N.to_nat (out_features m) ->
  length (bias m) = N.to_nat (out_features m) ->
  wf x -> shape x = b :: rest -> 0 < b -> numel rest = in_features m ->
  exists y, TestClassifier.forward (TestClassifier.mk m) x = Ok y /\
            shape y = [b; out_features m] /\ wf y.
Proof.
  intros Hw Hb Hwf Hs Hpos Hn. unfold TestClassifier.forward. rewrite Hs.
  destruct (N.eqb_spec b 0) as [->|_]; [lia|].
  unfold torch_view, reshape, size. rewrite Hs.
  replace (numel [b; numel rest] =? numel (b :: rest)) with true
    by (symmetry; apply N.eqb_eq; rewrite !numel_cons;
        change (numel []) with 1; rewrite N.mul_1_r; reflexivity).
  rewrite bind_Ok. unfold Linear_forward. cbn [shape elems rev app TestClassifier.model].
  rewrite Hn, N.eqb_refl. eexists. split; [reflexivity|]. split; [reflexivity|].
  unfold wf, size. cbn [shape elems numel fold_right].
  rewrite (length_concat_map_const _ (N.to_nat (out_features m))).
  - rewrite chunks_length. lia.
  - intros row. rewrite length_zip_with, length_map, Hw, Hb. apply Nat.min_id.
Qed.

(** X18. The instance of the "test" benchmark is wired soundly: if [torch.rand]
    and [nn.Linear] deliver the sizes they are asked for, then on every
    well-formed point of shape (3, 224, 224) the evaluation gets through the
    sum, the clamp, the view and the linear classifier, and its outcome is
    that of the criterion on a well-formed row of 10 logits against label
    0, negated. *)
Theorem test_instance_reaches_the_criterion (globals : gmap string pyval)
    (w : World) (func : ImageAdversarial.t) (x : ndarray Qc) :
  shape (torch_rand w [3; 224; 224]) = [3; 224; 224] ->
  wf (torch_rand w [3; 224; 224]) ->
  in_features (nn_Linear w (224 * 224 * 3) 10) = 224 * 224 * 3 ->
  out_features (nn_Linear w (224 * 224 * 3) 10) = 10 ->
  length (weight (nn_Linear w (224 * 224 * 3) 10)) = 10%nat ->
  length (bias (nn_Linear w (224 * 224 * 3) 10)) = 10%nat ->
  ImageAdversarial.next globals w (ImageAdversarial.Created "test")
  = (Ok func, ImageAdversarial.Suspended ImageAdversarial.YieldTest) ->
  wf x -> shape x = [3; 224; 224] ->
  exists logits : ndarray Qc,
    shape logits = [1; 10] /\ wf logits /\
    fst (ImageAdversarial._loss x func)
    = (value ← cross_entropy w logits (mk_ndarray [1] [0%Z]);
       Ok (value * - (1))%Qc).
Proof.
  intros Hrs Hrw Hin Hout Hlw Hlb Hnext Hx Hsx.
  unfold ImageAdversarial.next, ImageAdversarial.body in Hnext. cbv zeta in Hnext.
  change (String.eqb "test" "test") with true in Hnext. cbv iota in Hnext.
  destruct (ImageAdversarial._with_tag _ _ _) as [tagged|e] eqn:Htag;
    [|discriminate].
  rewrite bind_Ok in Hnext. apply (f_equal fst) in Hnext. cbn [fst] in Hnext.
  apply Ok_inj in Hnext. subst tagged.
  destruct (with_tag_inv _ _ _ _ Htag) as (func0 & kw & Hc & _ & Hfunc).
  unfold ImageAdversarial.construct in Hc.
  cbn [ImageAdversarial.kw_classifier ImageAdversarial.kw_image ImageAdversarial.kw_label
       ImageAdversarial.kw_targeted ImageAdversarial.kw_epsilon default] in Hc.
  destruct (ImageAdversarial_init_inv _ _ _ _ _ _ _ Hc)
    as (Htg & _ & Himg & Hlbl & Hcls & Hcrit & _).
  pose proof (imsize_of_init _ _ _ _ _ _ _ _ _ _ Hc Hrs) as Hims.
  assert (Hsame : fst (ImageAdversarial._loss x func) = fst (ImageAdversarial._loss x func0))
    by (rewrite Hfunc; apply ImageAdversarial_loss_ext; reflexivity).
  rewrite Hsame.
  rewrite (ImageAdversarial_loss_steps func0 x 3 224 224);
    [|rewrite Himg; exact Hrs|exact Hims|rewrite Himg; exact Hrw|exact Hx
     |rewrite Himg, Hrs; exact Hsx].
  change (3 * 224 * 224 =? 3 * 224 * 224) with true. cbv iota.
  rewrite Htg, Hlbl, Hcls, Hcrit, Himg. cbn [nn_call]. unfold TestClassifier.__init__.
  set (batch := mk_ndarray [1; 3; 224; 224] _).
  assert (Hbatch : wf batch).
  { unfold wf, size, batch. cbn [shape elems]. rewrite length_zip_with, Nat2N.inj_min.
    rewrite Hrw, Hx. unfold size. rewrite Hrs, Hsx. reflexivity. }
  destruct (TestClassifier_forward_Ok (nn_Linear w (224 * 224 * 3) 10) batch 1 [3; 224; 224])
    as (logits & Hfwd & Hshape & Hwf); try assumption.
  - rewrite Hlw, Hout. reflexivity.
  - rewrite Hlb, Hout. reflexivity.
  - reflexivity.
  - reflexivity.
  - rewrite Hin. reflexivity.
  - exists logits. rewrite Hout in Hshape. split; [exact Hshape|]. split; [exact Hwf|].
    change (224 * 224 * 3) with 150528 in Hfwd |- *.
    rewrite Hfwd, bind_Ok. reflexivity.
Qed.

Lemma Sample_test_instance :
  ImageAdversarial.next ImageAdversarial.core_globals Sample.world
    (ImageAdversarial.Created "test")
  = (Ok Probe.test_instance,
     ImageAdversarial.Suspended ImageAdversarial.YieldTest).
Proof.
  unfold Probe.test_instance.
  destruct (ImageAdversarial.next _ _ _) as [[f|e] g] eqn:H.
  - cbn [fst from_ok]. f_equal.
    unfold ImageAdversarial.next in H.
    destruct (ImageAdversarial.body _ _ _) as [[f' pt]|e'] eqn:Hb; [|discriminate].
    unfold ImageAdversarial.body in Hb. cbv zeta in Hb.
    change (String.eqb "test" "test") with true in Hb. cbv iota in Hb.
    destruct (ImageAdversarial._with_tag _ _ _); [|discriminate].
    rewrite bind_Ok in Hb. congruence.
  - exfalso.
    assert (Hok : is_ok (fst (ImageAdversarial.next ImageAdversarial.core_globals
                                Sample.world (ImageAdversarial.Created "test"))) = true)
      by (vm_compute; reflexivity).
    rewrite H in Hok. discriminate.
Qed.

Lemma test_instance_reaches_the_criterion_witness :
  exists logits : ndarray Qc,
    shape logits = [1; 10] /\ wf logits /\
    fst (ImageAdversarial._loss (np_zeros [3; 224; 224]) Probe.test_instance)
    = (value ← cross_entropy Sample.world logits (mk_ndarray [1] [0%Z]);
       Ok (value * - (1))%Qc).
Proof.
  apply (test_instance_reaches_the_criterion ImageAdversarial.core_globals Sample.world).
  - reflexivity.
  - vm_compute. reflexivity.
  - reflexivity.
  - reflexivity.
  - vm_compute. reflexivity.
  - vm_compute. reflexivity.
  - exact Sample_test_instance.
  - vm_compute. reflexivity.
  - reflexivity.
Defined.

(** ** [Resnet50.forward] *)

(** X19. [Resnet50] hands the network the batch normalised with the ImageNet
    statistics, channel by channel, and only that: on a well-formed batch
    of 3-channel images its outcome is the network's on the normalised
    batch, and a batch with another number of channels (other than 1) is
    refused with RuntimeError before the network is asked. *)
Theorem Resnet50_forward_normalises_first
    (pretrained : result (ndarray Qc -> result (ndarray Qc)))
    (net : Resnet50.t) (x : ndarray Qc) (b c h w : N) :
  Resnet50.__init__ pretrained = Ok net ->
  wf x -> shape x = [b; c; h; w] -> c <> 1 ->
  if c =? 3
  then exists y : ndarray Qc,
         Resnet50.forward net x = Resnet50.model net y /\
         pretrained = Ok (Resnet50.model net) /\
         shape y = [b; 3; h; w] /\ wf y /\
         forall n ch r, n < b -> ch < 3 -> r < h * w ->
           nth (N.to_nat ((n * 3 + ch) * (h * w) + r)) (elems y) 0%Qc
           = ((nth (N.to_nat ((n * 3 + ch) * (h * w) + r)) (elems x) 0
               - nth (N.to_nat ch) [dec 485 1000; dec 456 1000; dec 406 1000] 0)
              / nth (N.to_nat ch) [dec 229 1000; dec 224 1000; dec 225 1000] 0)%Qc
  else Resnet50.forward net x = Raise RuntimeError.
Proof.
  intros Hinit Hwf Hs Hc1.
  unfold Resnet50.__init__ in Hinit. cbv zeta in Hinit.
  destruct pretrained as [model|e]; [|discriminate].
  rewrite bind_Ok in Hinit. apply Ok_inj in Hinit. subst net.
  unfold Resnet50.forward. cbn [Resnet50.norm Resnet50.model].
  destruct (N.eqb_spec c 3) as [->|Hc3].
  - destruct (Normalize_forward_entries
                [dec 485 1000; dec 456 1000; dec 406 1000]
                [dec 229 1000; dec 224 1000; dec 225 1000] x b 3 h w)
      as (y & Hy & Hshape & Hywf & Hentries); try reflexivity; try assumption.
    exists y. rewrite Hy, bind_Ok. repeat split; assumption.
  - unfold Normalize.forward, Normalize.__init__.
    cbn [Normalize.mean Normalize.std index_None_all_None_None shape elems length].
    rewrite !bind_Ok. unfold torch_sub, broadcast2. rewrite Hs. cbn [shape].
    unfold broadcast_shapes. cbn [rev app broadcast_rev].
    change (N.of_nat 3) with 3.
    apply N.eqb_neq in Hc3, Hc1. rewrite Hc3, Hc1.
    destruct (b =? 1); reflexivity.
Qed.

Lemma Resnet50_forward_normalises_first_witness :
  exists y : ndarray Qc,
    Resnet50.forward Probe.net Probe.batch = Resnet50.model Probe.net y /\
    resnet50 Sample.imagenet_world = Ok (Resnet50.model Probe.net) /\
    shape y = [2; 3; 1; 2] /\ wf y /\
    forall n ch r, n < 2 -> ch < 3 -> r < 1 * 2 ->
      nth (N.to_nat ((n * 3 + ch) * (1 * 2) + r)) (elems y) 0%Qc
      = ((nth (N.to_nat ((n * 3 + ch) * (1 * 2) + r)) (elems Probe.batch) 0
          - nth (N.to_nat ch) [dec 485 1000; dec 456 1000; dec 406 1000] 0)
         / nth (N.to_nat ch) [dec 229 1000; dec 224 1000; dec 225 1000] 0)%Qc.
Proof.
  apply (Resnet50_forward_normalises_first (resnet50 Sample.imagenet_world)
           Probe.net Probe.batch 2 3 1 2).
  - exact Probe_net_init.
  - vm_compute. reflexivity.
  - reflexivity.
  - discriminate.
Defined.

(** ** The domain [Image] declares *)

Lemma Forall_map_replicate {A B} (P : B -> Prop) (f : A -> B) n (v : A) :
  P (f v) -> Forall P (map f (replicate n v)).
Proof. intros H. induction n as [|n IH]; cbn [replicate map]; constructor; assumption. Qed.

(** X20. The point the optimizer starts from is a point of the domain and of the
    objective: the initial value declared by the constructor of [Image]
    lies within the bounds 0 and 255.99 it declares, and evaluating it
    returns a value. *)
Theorem Image_initial_point_is_valid (w : World) (pn : string) (idx : Z)
    (self : Image.t) :
  colour_asset w ->
  Image.__init__ w pn idx = Ok self ->
  let domain := base.parametrization (Image.super self) in
  p.bounds domain = Some (p.mk_Bounds 0%Qc (dec 25599 100) "clipping" true) /\
  Forall (fun u => (0 <= u)%Qc /\ (u <= dec 25599 100)%Qc) (elems (p.init domain)) /\
  exists v : Qc, fst (Image._loss (p.init domain) self) = Ok v.
Proof.
  intros Hw Hinit domain.
  pose proof (Image_init_inv _ _ _ _ Hw Hinit) as Hinv.
  assert (Hdom : domain
                 = p.mk_Array (amap (Qcmult (dec 128 1)) (np_ones [256; 256; 3])) true
                     (Some (dec 35 1))
                     (Some (p.mk_Bounds 0%Qc (dec 25599 100) "clipping" true))
                     (Some (p.mk_Crossover [0; 1]
                              (p.mk_Scalar 1%Qc (dec 200 1) true)))
                     (Some EmptyString)).
  { subst domain. unfold Image.__init__ in Hinit. cbv zeta in Hinit.
    bind_inv Hinit. bind_inv Hinit. bind_inv Hinit. bind_inv Hinit.
    bind_inv Hinit. bind_inv Hinit. apply Ok_inj in Hinit. subst self.
    apply set_mutation_inv in Ha3 as [_ ->].
    apply set_bounds_inv in Ha4 as [_ ->]. reflexivity. }
  rewrite Hdom. cbn [p.bounds p.init]. split; [reflexivity|]. split.
  - unfold np_ones, full, amap. cbn [elems].
    apply Forall_map_replicate. split; discriminate.
  - rewrite Image_loss_value; [|exact Hinv|].
    + change (size (amap (Qcmult (dec 128 1)) (np_ones [256; 256; 3])) =? 256 * 256 * 3)
        with true. cbv iota. eexists. reflexivity.
    + apply amap_wf. unfold wf, size, np_ones, full. cbn [shape elems].
      rewrite length_replicate. apply N2Nat.id.
Qed.

Lemma Image_initial_point_is_valid_witness :
  let domain := base.parametrization (Image.super Probe.gradient_image) in
  p.bounds domain = Some (p.mk_Bounds 0%Qc (dec 25599 100) "clipping" true) /\
  Forall (fun u => (0 <= u)%Qc /\ (u <= dec 25599 100)%Qc) (elems (p.init domain)) /\
  exists v : Qc, fst (Image._loss (p.init domain) Probe.gradient_image) = Ok v.
Proof.
  apply (Image_initial_point_is_valid Probe.gradient_world "recovering" 0).
  - exact Probe_gradient_colour.
  - exact Probe_gradient_init.
Defined.
